(** * Proxyshop card layouts: a shallow embedding of [src/layouts.py]

    The development follows the Python module top-down:
    - [Py]: the Python built-ins the module relies on ([str] methods,
      [int], exceptions), over strings as sequences of code points;
    - the data model: Scryfall records, art-file details, settings;
    - the layout classes: the properties the specification talks about,
      each named after its class and its name in the source;
    - [join_dual_card_layouts], over an explicit store of instance
      attributes;
    - the properties, stated and proved (or refuted) on these definitions. *)

From Stdlib Require Import String Ascii List ZArith NArith Lia Bool DecimalString.
From stdpp Require Import base option list gmap.

Local Open Scope Z_scope.

(** ** Python built-ins *)

Module Py.

(** A Python [str] is an immutable sequence of Unicode code points.
    Indices, slices and [find] count code points, so the embedding keeps
    one list element per code point. *)
Abbreviation char := N.
Abbreviation str := (list N).

(** String literals are written [u "..."]: the literal's UTF-8 bytes are
    decoded into code points. [pending] counts the continuation bytes still
    expected for the code point accumulated in [acc]. *)
Fixpoint utf8_decode (pending : nat) (acc : N) (bs : list N) : str :=
  match bs with
  | [] => []
  | b :: bs' =>
      match pending with
      | O =>
          if (b <? 128)%N then b :: utf8_decode 0 0%N bs'
          else if (b <? 224)%N then utf8_decode 1 (N.land b 31) bs'
          else if (b <? 240)%N then utf8_decode 2 (N.land b 15) bs'
          else utf8_decode 3 (N.land b 7) bs'
      | S k =>
          let acc' := (acc * 64 + N.land b 63)%N in
          match k with
          | O => acc' :: utf8_decode 0 0%N bs'
          | S _ => utf8_decode k acc' bs'
          end
      end
  end.

Definition u (s : string) : str :=
  utf8_decode 0 0%N (map N_of_ascii (list_ascii_of_string s)).
Arguments u s%_string.

(** The built-in exception classes raised by the modelled code. *)
Inductive exn := TypeError | IndexError | ValueError.

Definition exn_name (e : exn) : string :=
  match e with
  | TypeError => "TypeError"
  | IndexError => "IndexError"
  | ValueError => "ValueError"
  end.

(** The outcome of evaluating a Python expression: a value, or a raised
    exception that propagates to the caller. *)
Inductive res (A : Type) :=
| Ok (a : A)
| Raise (e : exn).
Arguments Ok {A} a.
Arguments Raise {A} e.

Definition bind {A B} (m : res A) (k : A -> res B) : res B :=
  match m with
  | Ok a => k a
  | Raise e => Raise e
  end.

Definition is_ok {A} (m : res A) : bool :=
  match m with Ok _ => true | Raise _ => false end.

(** [s == t] on strings. *)
Definition str_eq (s t : str) : bool := bool_decide (s = t).

Definition N_in (c : N) (l : list N) : bool := existsb (N.eqb c) l.

(** [s.startswith(p)]. *)
Fixpoint startswith (p s : str) : bool :=
  match p, s with
  | [], _ => true
  | _ :: _, [] => false
  | a :: p', b :: s' => (a =? b)%N && startswith p' s'
  end.

(** [s.find(sub)]: the lowest index at which [sub] occurs, or -1. *)
Fixpoint find_from (sub s : str) (i : Z) : Z :=
  if startswith sub s then i
  else match s with
       | [] => -1
       | _ :: s' => find_from sub s' (i + 1)
       end.

Definition find (sub s : str) : Z := find_from sub s 0.

(** [sub in s]. *)
Definition contains (sub s : str) : bool := 0 <=? find sub s.

(** Slices with non-negative bounds: [s[i:]], [s[:j]], [s[0:j]]. A negative
    bound does not occur at the call sites that use these two. *)
Definition slice_from (s : str) (i : Z) : str := drop (Z.to_nat i) s.
Definition slice_to (s : str) (j : Z) : str := take (Z.to_nat j) s.

(** [l[i]] for a non-negative index. *)
Definition index {A} (l : list A) (i : nat) : res A :=
  match l !! i with
  | Some a => Ok a
  | None => Raise IndexError
  end.

(** [l[:-1]]: all but the last element, the empty list staying empty. *)
Definition but_last {A} (l : list A) : list A := removelast l.

(** [s.split(sep)] for a non-empty separator. The head of the result is the
    piece that starts at the current position; [skip] counts the code points
    of a separator occurrence that are still to be passed over. *)
Fixpoint split_go (sep : str) (skip : nat) (s : str) : list str :=
  match s with
  | [] => [[]]
  | c :: s' =>
      match skip with
      | S k => split_go sep k s'
      | O =>
          if startswith sep s then [] :: split_go sep (length sep - 1) s'
          else match split_go sep 0 s' with
               | p :: ps => (c :: p) :: ps
               | [] => [[c]]
               end
      end
  end.

Definition split (sep s : str) : list str := split_go sep 0 s.

(** [s.split(sep, 1)]: at most one cut, at the first occurrence. *)
Definition split1 (sep s : str) : list str :=
  let i := find sep s in
  if i <? 0 then [s]
  else [slice_to s i; slice_from s (i + Z.of_nat (length sep))].

(** [a, b = l]: unpacking into exactly two targets. *)
Definition unpack2 {A} (l : list A) : res (A * A) :=
  match l with
  | [a; b] => Ok (a, b)
  | _ => Raise ValueError
  end.

(** [s.count(sep)] for a non-empty separator: non-overlapping occurrences. *)
Definition count (sep s : str) : Z := Z.of_nat (length (split sep s)) - 1.

(** [sep.join(ls)]. *)
Fixpoint join (sep : str) (ls : list str) : str :=
  match ls with
  | [] => []
  | [x] => x
  | x :: rest => x ++ sep ++ join sep rest
  end.

(** The line boundaries of [str.splitlines]: LF, VT, FF, CR, FS, GS, RS,
    NEL, LINE SEPARATOR and PARAGRAPH SEPARATOR; CR LF counts once. *)
Definition is_linebreak (c : char) : bool :=
  N_in c [10; 11; 12; 13; 28; 29; 30; 133; 8232; 8233]%N.

(** [s.splitlines()]: no empty last line after a final boundary. *)
Fixpoint splitlines (s : str) : list str :=
  match s with
  | [] => []
  | c :: s' =>
      if is_linebreak c then
        [] :: match s' with
              | d :: s'' => if (c =? 13)%N && (d =? 10)%N then splitlines s''
                            else splitlines s'
              | [] => []
              end
      else match splitlines s' with
           | l :: ls => (c :: l) :: ls
           | [] => [[c]]
           end
  end.

(** [c.isspace()]. *)
Definition isspace (c : char) : bool :=
  N_in c [9; 10; 11; 12; 13; 28; 29; 30; 31; 32; 133; 160; 5760;
          8192; 8193; 8194; 8195; 8196; 8197; 8198; 8199; 8200; 8201; 8202;
          8232; 8233; 8239; 8287; 12288]%N.

Fixpoint lstrip (s : str) : str :=
  match s with
  | [] => []
  | c :: s' => if isspace c then lstrip s' else s
  end.

Definition rstrip (s : str) : str := rev (lstrip (rev s)).
Definition strip (s : str) : str := rstrip (lstrip s).

(** [s.replace(old, new)] for a non-empty [old]. *)
Fixpoint replace_go (old new : str) (skip : nat) (s : str) : str :=
  match s with
  | [] => []
  | c :: s' =>
      match skip with
      | S k => replace_go old new k s'
      | O =>
          if startswith old s then new ++ replace_go old new (length old - 1) s'
          else c :: replace_go old new 0 s'
      end
  end.

Definition replace (old new s : str) : str := replace_go old new 0 s.

(** [s.upper()] and [s.lower()], on the ASCII letters. Set codes, language
    codes and watermark keys are ASCII; the case mappings of other scripts
    are not modelled. *)
Definition upper_char (c : char) : char :=
  if (97 <=? c)%N && (c <=? 122)%N then (c - 32)%N else c.
Definition lower_char (c : char) : char :=
  if (65 <=? c)%N && (c <=? 90)%N then (c + 32)%N else c.
Definition upper (s : str) : str := map upper_char s.
Definition lower (s : str) : str := map lower_char s.

(** [c.isdecimal()] and the decimal value of a character: the decimal
    digits (general category Nd) of the Unicode Character Database 14.0, the
    one of CPython 3.11. They come in runs of ten, from 0 to 9;
    [decimal_zeros] lists the zero of each run. *)
Definition decimal_zeros : list N :=
  [48; 1632; 1776; 1984; 2406; 2534; 2662; 2790; 2918; 3046; 3174; 3302;
   3430; 3558; 3664; 3792; 3872; 4160; 4240; 6112; 6160; 6470; 6608; 6784;
   6800; 6992; 7088; 7232; 7248; 42528; 43216; 43264; 43472; 43504; 43600;
   44016; 65296; 66720; 68912; 69734; 69872; 69942; 70096; 70384; 70736;
   70864; 71248; 71360; 71472; 71904; 72016; 72784; 73040; 73120; 92768;
   92864; 93008; 120782; 120792; 120802; 120812; 120822; 123200; 123632;
   125264; 130032]%N.

Fixpoint decimal_in (zeros : list N) (c : char) : option Z :=
  match zeros with
  | [] => None
  | z :: rest =>
      if (z <=? c)%N && (c <=? z + 9)%N then Some (Z.of_N (c - z))
      else decimal_in rest c
  end.

Definition decimal (c : char) : option Z := decimal_in decimal_zeros c.

(** The characters of numeric type Digit that are no decimal digits
    (superscripts, subscripts, circled and parenthesized digits and the
    like), as inclusive ranges of code points. *)
Definition other_digits : list (N * N) :=
  [(178, 179); (185, 185); (4969, 4977); (6618, 6618); (8304, 8304);
   (8308, 8313); (8320, 8329); (9312, 9320); (9332, 9340); (9352, 9360);
   (9450, 9450); (9461, 9469); (9471, 9471); (10102, 10110);
   (10112, 10120); (10122, 10130); (68160, 68163); (69216, 69224);
   (69714, 69722); (127232, 127242)]%N.

(** [c.isdigit()]: a decimal digit or one of the other digits. *)
Definition isdigit (c : char) : bool :=
  match decimal c with
  | Some _ => true
  | None =>
      existsb (fun r : N * N => let '(lo, hi) := r in (lo <=? c)%N && (c <=? hi)%N)
              other_digits
  end.

(** A character of the class [[0-9]] of a pattern. *)
Definition ascii_digit (c : char) : bool := (48 <=? c)%N && (c <=? 57)%N.

(** [int(s)] for a string of characters that pass [isdigit], which is what
    the one call site passes: every character has to be a decimal digit, of
    whatever script, and the empty string is not a literal. The signs,
    blanks and underscores that [int] reads as well do not pass [isdigit].
    CPython's configurable cap on the number of digits is not modelled. *)
Fixpoint int_go (s : str) (acc : Z) : res Z :=
  match s with
  | [] => Ok acc
  | c :: s' =>
      match decimal c with
      | Some d => int_go s' (acc * 10 + d)
      | None => Raise ValueError
      end
  end.

Definition int (s : str) : res Z :=
  match s with
  | [] => Raise ValueError
  | _ => int_go s 0
  end.

(** [str(n)] for an integer. *)
Definition str_of_int (n : Z) : str :=
  u (NilZero.string_of_int (Z.to_int n)).

(** [not l] for a list. *)
Definition empty {A} (l : list A) : bool :=
  match l with [] => true | _ => false end.

(** Truthiness of a string and of an optional value. *)
Definition truthy (s : str) : bool := negb (empty s).

Definition truthy_opt (o : option str) : bool :=
  match o with Some s => truthy s | None => false end.

(** [d.get(key, default)] on a missing key. *)
Definition get {A} (o : option A) (d : A) : A := default d o.

End Py.

Import Py.

Declare Scope py_scope.
Delimit Scope py_scope with py.
Notation "'do' x <- m ; k" := (bind m (fun x => k))
  (at level 10, x name, m at level 100, k at level 200) : py_scope.
Notation "'do' ' p <- m ; k" := (bind m (fun p => k))
  (at level 10, p pattern, m at level 100, k at level 200) : py_scope.
Local Open Scope py_scope.

(** The newline character, [\n], and a few literals used below. *)
Definition NL : str := [10%N].
Definition EM_DASH : str := u "—".

(** Lines of a text: [lines [a; b]] is ["a\nb"]. *)
Definition lines (ls : list str) : str := join NL ls.

(** Modelled from the spec: [omnitils.strings.get_line] and [strip_lines]
    are library helpers outside this repository's sources. The specification
    (Mutate, Saga) reads [get_line(text, 0)] as the first line of the text and
    [strip_lines(text, 1)] as the text without its first line, lines being
    separated by [\n]. *)
Definition get_line0 (text : str) : str := hd [] (split NL text).
Definition strip_lines1 (text : str) : str := join NL (tl (split NL text)).

(** ** Data model *)

(** [pathlib.Path] values, kept as their string form. *)
Definition Path := str.

(** A card face object of a Scryfall record, with the keys read by the
    layout classes. [name] is present on every card and face object and is
    indexed directly by the source; the other keys are read with [.get]. *)
Module Face.
Record t := mk {
  name : str;
  printed_name : option str;
  mana_cost : option str;
  type_line : option str;
  printed_type_line : option str;
  oracle_text : option str;
  printed_text : option str;
  flavor_text : option str;
  watermark : option str }.
End Face.

(** A Scryfall card record. [top] is the record object itself seen as a face
    (its own [name], [mana_cost], [oracle_text], ... keys); the other
    fields are the record-level keys. *)
Module Scryfall.
Record t := mk {
  top : Face.t;
  card_faces : option (list Face.t);
  set : option str;
  collector_number : option str;
  lang : option str;
  keywords : option (list str);
  oracle_id : option str;
  front : option bool }.
End Scryfall.

(** Details parsed from the art file name ([CardDetails]). *)
Module CardDetails.
Record t := mk {
  name : str;
  file : Path;
  artist : option str;
  creator : option str }.
End CardDetails.

(** An entry of the set-data table ([CON.set_data], read from the
    hexproof.io data file), with the keys read by the layout classes;
    [none] is the empty dictionary. *)
Module SetData.
Record t := mk {
  code_parent : option str;
  count_printed : option Z;
  count_cards : option Z;
  count_tokens : option Z }.
Definition none : t := mk None None None None.
End SetData.

(** Frame information computed by the frame logic for one face. *)
Module FrameDetails.
Record t := mk {
  twins : str;
  pinlines : str;
  background : str;
  identity : str;
  is_colorless : bool;
  is_hybrid : bool }.
End FrameDetails.

(** Modelled from the spec: the [WatermarkMode] setting is declared in
    [src.enums.settings], outside the sources at hand; the watermark policy
    has the four states Disabled, Forced, Automatic and Fallback. *)
Module WatermarkMode.
Inductive t := Disabled | Automatic | Fallback | Forced.
Definition eqb (a b : t) : bool :=
  match a, b with
  | Disabled, Disabled | Automatic, Automatic
  | Fallback, Fallback | Forced, Forced => true
  | _, _ => false
  end.
End WatermarkMode.

(** The settings read by the layout classes ([CFG]). *)
Module Config.
Record t := mk {
  lang : str;
  watermark_mode : WatermarkMode.t;
  watermark_default : str;
  remove_reminder : bool }.
End Config.

(** The [LayoutType] tags that [card_class] takes in the source. *)
Module LayoutType.
Inductive t :=
| Normal | Mutate | Prototype | Planeswalker
| PlaneswalkerTransformFront | PlaneswalkerTransformBack
| PlaneswalkerMDFCFront | PlaneswalkerMDFCBack
| TransformFront | TransformBack | MDFCFront | MDFCBack
| Adventure | Leveler | Saga | Class | Case | Battle | Planar | Split
| Station.
Definition eqb (a b : t) : bool :=
  match a, b with
  | Normal, Normal | Mutate, Mutate | Prototype, Prototype
  | Planeswalker, Planeswalker
  | PlaneswalkerTransformFront, PlaneswalkerTransformFront
  | PlaneswalkerTransformBack, PlaneswalkerTransformBack
  | PlaneswalkerMDFCFront, PlaneswalkerMDFCFront
  | PlaneswalkerMDFCBack, PlaneswalkerMDFCBack
  | TransformFront, TransformFront | TransformBack, TransformBack
  | MDFCFront, MDFCFront | MDFCBack, MDFCBack
  | Adventure, Adventure | Leveler, Leveler | Saga, Saga | Class, Class
  | Case, Case | Battle, Battle | Planar, Planar | Split, Split
  | Station, Station => true
  | _, _ => false
  end.
End LayoutType.

(** The layout classes of the module. *)
Module Cls.
Inductive t :=
| NormalLayout | MutateLayout | PrototypeLayout | PlaneswalkerLayout
| PlaneswalkerTransformLayout | PlaneswalkerMDFCLayout | TransformLayout
| ModalDoubleFacedLayout | AdventureLayout | LevelerLayout | SagaLayout
| ClassLayout | CaseLayout | BattleLayout | PlanarLayout | SplitLayout
| TokenLayout | StationLayout.
End Cls.

(** A layout instance: its class and the two values given to [__init__].
    Every cached property of the source is a function of these (and of the
    settings), except where an attribute is assigned after construction;
    see [store] below. *)
Record Layout := mkLayout {
  cls : Cls.t;
  scryfall : Scryfall.t;
  file : CardDetails.t }.

(** The dictionaries built by [saga_lines] and [pw_abilities]. *)
Record SagaLine := mkSagaLine {
  saga_line_text : str;
  saga_line_icons : list str }.

Record PwAbility := mkPwAbility {
  pw_text : str;
  pw_icon : option char;
  pw_cost : option str }.

(** What the layout classes consume from the rest of the application and
    from third-party code: the settings, the set-data table by set code,
    [omnitils]' [normalize_str], the frame logic, the watermark asset
    lookups, the oracle lookup behind [first_print], and two compiled
    patterns of [CardTextPatterns] ([findall] of PLANESWALKER; group 1 of a
    TEXT_REMINDER_ENDING match). *)
Class Collaborators := {
  CFG : Config.t;
  CON_set_data : str -> option SetData.t;
  normalize_str : str -> str;
  get_frame_details : Face.t -> FrameDetails.t;
  get_watermark_svg : str -> option Path;
  get_watermark_svg_from_set : str -> option Path;
  get_cards_oracle : str -> list Scryfall.t;
  PLANESWALKER_findall : str -> list str;
  TEXT_REMINDER_ENDING_match : str -> option str }.

(** ** The layout classes *)

Section Layouts.
Context `{Collaborators}.

(** *** NormalLayout *)

(** [input_name]: the card name given in the art file name. *)
Definition NormalLayout_input_name (self : Layout) : str :=
  CardDetails.name (file self).

(** The loop of [card] over [card_faces]: the first face whose normalized
    name equals the normalized input name. *)
Fixpoint card_scan (faces : list Face.t) (input_name : str) : option Face.t :=
  match faces with
  | [] => None
  | face :: rest =>
      if str_eq (normalize_str (Face.name face)) (normalize_str input_name)
      then Some face
      else card_scan rest input_name
  end.

(** [NormalLayout.card]: the matching face, or the record itself. *)
Definition NormalLayout_card (self : Layout) : Face.t :=
  match card_scan (get (Scryfall.card_faces (scryfall self)) [])
                  (NormalLayout_input_name self) with
  | Some face => face
  | None => Scryfall.top (scryfall self)
  end.

Definition NormalLayout_set (self : Layout) : str :=
  upper (get (Scryfall.set (scryfall self)) (u "MTG")).

(** [set_data]: the entry of the set-data table for the set of the record,
    the empty dictionary if there is none. *)
Definition NormalLayout_set_data (self : Layout) : SetData.t :=
  get (CON_set_data (lower (get (Scryfall.set (scryfall self)) (u "mtg"))))
      SetData.none.

(** [TokenLayout.set]: the parent set code, if the set data have one. *)
Definition TokenLayout_set (self : Layout) : str :=
  upper (get (SetData.code_parent (NormalLayout_set_data self))
             (NormalLayout_set self)).

(** [self.set]: [TokenLayout] overrides it, the other classes inherit
    [NormalLayout.set]. *)
Definition set (self : Layout) : str :=
  match cls self with
  | Cls.TokenLayout => TokenLayout_set self
  | _ => NormalLayout_set self
  end.

Definition NormalLayout_lang (self : Layout) : str :=
  upper (get (Scryfall.lang (scryfall self)) (Config.lang CFG)).

Definition NormalLayout_is_alt_lang (self : Layout) : bool :=
  negb (str_eq (NormalLayout_lang self) (u "EN")).

Definition NormalLayout_is_front (self : Layout) : bool :=
  get (Scryfall.front (scryfall self)) true.

Definition NormalLayout_keywords (self : Layout) : list str :=
  get (Scryfall.keywords (scryfall self)) [].

(** [first_print]: the first record of the oracle lookup, if any. *)
Definition NormalLayout_first_print (self : Layout) : option Scryfall.t :=
  head (get_cards_oracle (get (Scryfall.oracle_id (scryfall self)) [])).

(** The text properties below are the [NormalLayout] bodies; [SplitLayout]
    overrides each of them, so inside them [self.card] is
    [NormalLayout.card]. *)
Definition NormalLayout_name_raw (self : Layout) : str :=
  Face.name (NormalLayout_card self).

Definition NormalLayout_name (self : Layout) : str :=
  if NormalLayout_is_alt_lang self
  then get (Face.printed_name (NormalLayout_card self)) (NormalLayout_name_raw self)
  else NormalLayout_name_raw self.

Definition NormalLayout_mana_cost (self : Layout) : str :=
  get (Face.mana_cost (NormalLayout_card self)) [].

Definition NormalLayout_oracle_text_raw (self : Layout) : str :=
  get (Face.oracle_text (NormalLayout_card self)) [].

Definition NormalLayout_oracle_text (self : Layout) : str :=
  if NormalLayout_is_alt_lang self
  then get (Face.printed_text (NormalLayout_card self))
           (NormalLayout_oracle_text_raw self)
  else NormalLayout_oracle_text_raw self.

Definition NormalLayout_type_line_raw (self : Layout) : str :=
  get (Face.type_line (NormalLayout_card self)) [].

Definition NormalLayout_type_line (self : Layout) : str :=
  if NormalLayout_is_alt_lang self
  then get (Face.printed_type_line (NormalLayout_card self))
           (NormalLayout_type_line_raw self)
  else NormalLayout_type_line_raw self.

Definition NormalLayout_collector_number_raw (self : Layout) : option str :=
  Scryfall.collector_number (scryfall self).

(** [collector_number]: [int] of the digit characters of the raw number
    when the raw number is a non-empty string, 0 otherwise. *)
Definition NormalLayout_collector_number (self : Layout) : res Z :=
  if truthy_opt (NormalLayout_collector_number_raw self)
  then int (List.filter isdigit (get (NormalLayout_collector_number_raw self) []))
  else Ok 0.

Definition NormalLayout_watermark_raw (self : Layout) : option str :=
  Face.watermark (NormalLayout_card self).

(** [_find_watermark_svg], the helper nested in [watermark_svg] and in
    [watermark_svgs]: the asset for a watermark key, with the two special
    keys ['set'] and ['symbol']. *)
Definition find_watermark_svg (self : Layout) (wm : option str) : option Path :=
  if negb (truthy_opt wm) then None
  else
    let wm := lower (get wm []) in
    if str_eq wm (u "set") || str_eq wm (u "symbol") then
      get_watermark_svg_from_set
        (if str_eq wm (u "set")
         then match NormalLayout_first_print self with
              | Some first => get (Scryfall.set first) (set self)
              | None => set self
              end
         else set self)
    else get_watermark_svg wm.

(** [watermark_svg]. A [Path] is always truthy, so [if path] tests for a
    found asset. *)
Definition NormalLayout_watermark_svg (self : Layout) : option Path :=
  if WatermarkMode.eqb (Config.watermark_mode CFG) WatermarkMode.Disabled
  then None
  else if WatermarkMode.eqb (Config.watermark_mode CFG) WatermarkMode.Forced
  then find_watermark_svg self (Some (Config.watermark_default CFG))
  else
    let path := find_watermark_svg self (NormalLayout_watermark_raw self) in
    if bool_decide (is_Some path)
       || WatermarkMode.eqb (Config.watermark_mode CFG) WatermarkMode.Automatic
    then path
    else find_watermark_svg self (Some (Config.watermark_default CFG)).

(** *** SplitLayout *)

Definition SplitLayout_cards (self : Layout) : list Face.t :=
  get (Scryfall.card_faces (scryfall self)) [].

Definition SplitLayout_card (self : Layout) : res Face.t :=
  index (SplitLayout_cards self) 0.

Definition SplitLayout_names (self : Layout) : list str :=
  if NormalLayout_is_alt_lang self
  then map (fun c => get (Face.printed_name c) (Face.name c)) (SplitLayout_cards self)
  else map Face.name (SplitLayout_cards self).

Definition SplitLayout_name (self : Layout) : res str :=
  index (SplitLayout_names self) 0.

Definition SplitLayout_display_name (self : Layout) : res str :=
  do n0 <- index (SplitLayout_names self) 0;
  do n1 <- index (SplitLayout_names self) 1;
  Ok (n0 ++ u " // " ++ n1).

Definition SplitLayout_type_lines (self : Layout) : list str :=
  if NormalLayout_is_alt_lang self
  then map (fun c => get (Face.printed_type_line c) (get (Face.type_line c) []))
           (SplitLayout_cards self)
  else map (fun c => get (Face.type_line c) []) (SplitLayout_cards self).

Definition SplitLayout_type_line (self : Layout) : res str :=
  index (SplitLayout_type_lines self) 0.

Definition SplitLayout_mana_costs (self : Layout) : list str :=
  map (fun c => get (Face.mana_cost c) []) (SplitLayout_cards self).

Definition SplitLayout_mana_cost (self : Layout) : res str :=
  index (SplitLayout_mana_costs self) 0.

(** [SplitLayout.__str__]. *)
Definition SplitLayout_str (self : Layout) : res str :=
  do display_name <- SplitLayout_display_name self;
  let set := NormalLayout_set self in
  do collector_number <- NormalLayout_collector_number self;
  Ok (display_name
      ++ (if truthy set then u " [" ++ set ++ u "]" else [])
      ++ (if negb (collector_number =? 0)
          then u " {" ++ str_of_int collector_number ++ u "}" else [])).

(** [art_files]: the one art file of the instance, in a list. *)
Definition SplitLayout_art_files (self : Layout) : list Path :=
  [CardDetails.file (file self)].

Definition SplitLayout_watermarks_raw (self : Layout) : list str :=
  map (fun c => get (Face.watermark c) []) (SplitLayout_cards self).

(** The body of the loop of [watermark_svgs], for one raw watermark. *)
Definition SplitLayout_watermark_svg_for (self : Layout) (w : str) : option Path :=
  if WatermarkMode.eqb (Config.watermark_mode CFG) WatermarkMode.Disabled
  then None
  else if WatermarkMode.eqb (Config.watermark_mode CFG) WatermarkMode.Forced
  then find_watermark_svg self (Some (Config.watermark_default CFG))
  else
    let path := find_watermark_svg self (Some w) in
    if bool_decide (is_Some path)
       || WatermarkMode.eqb (Config.watermark_mode CFG) WatermarkMode.Automatic
    then path
    else find_watermark_svg self (Some (Config.watermark_default CFG)).

Fixpoint SplitLayout_watermark_svgs_loop (self : Layout) (ws : list str)
    (watermarks : list (option Path)) : list (option Path) :=
  match ws with
  | [] => watermarks
  | w :: rest =>
      SplitLayout_watermark_svgs_loop self rest
        (watermarks ++ [SplitLayout_watermark_svg_for self w])
  end.

Definition SplitLayout_watermark_svgs (self : Layout) : list (option Path) :=
  SplitLayout_watermark_svgs_loop self (SplitLayout_watermarks_raw self) [].

(** The texts both [oracle_texts] and [shared_reminder] iterate over. *)
Definition SplitLayout_face_texts (self : Layout) : list str :=
  map (fun c =>
         if NormalLayout_is_alt_lang self
         then get (Face.printed_text c) (get (Face.oracle_text c) [])
         else get (Face.oracle_text c) [])
      (SplitLayout_cards self).

Fixpoint SplitLayout_shared_reminder_loop (texts : list str) (prev_match : str) : str :=
  match texts with
  | [] => prev_match
  | oracle_text :: rest =>
      let m := TEXT_REMINDER_ENDING_match oracle_text in
      let curr_match := get m [] in
      if negb (bool_decide (is_Some m))
         || (truthy prev_match && negb (str_eq prev_match curr_match))
      then []
      else SplitLayout_shared_reminder_loop rest curr_match
  end.

Definition SplitLayout_shared_reminder (self : Layout) : str :=
  SplitLayout_shared_reminder_loop (SplitLayout_face_texts self) [].

(** ['Fuse' in self.keywords]. *)
Definition has_fuse (self : Layout) : bool :=
  existsb (str_eq (u "Fuse")) (NormalLayout_keywords self).

(** The body of the loop of [oracle_texts], for the text of one half. *)
Definition SplitLayout_oracle_text_for (self : Layout) (t : str) : str :=
  if has_fuse self then
    join [] (but_last (split NL t))
  else if truthy (SplitLayout_shared_reminder self) then
    rstrip (take (length t - length (SplitLayout_shared_reminder self)) t)
  else t.

Fixpoint SplitLayout_oracle_texts_loop (self : Layout) (ts : list str)
    (text : list str) : list str :=
  match ts with
  | [] => text
  | t :: rest =>
      SplitLayout_oracle_texts_loop self rest
        (text ++ [SplitLayout_oracle_text_for self t])
  end.

Definition SplitLayout_oracle_texts (self : Layout) : list str :=
  SplitLayout_oracle_texts_loop self (SplitLayout_face_texts self) [].

Definition SplitLayout_oracle_text (self : Layout) : res str :=
  index (SplitLayout_oracle_texts self) 0.

Definition SplitLayout_watermark_raw (self : Layout) : res str :=
  index (SplitLayout_watermarks_raw self) 0.

(** *** Attribute lookup through the class of the instance *)

(** [self.card]: [SplitLayout] overrides the property; every other class
    inherits [NormalLayout.card]. *)
Definition card (self : Layout) : res Face.t :=
  match cls self with
  | Cls.SplitLayout => SplitLayout_card self
  | _ => Ok (NormalLayout_card self)
  end.

(** [self.frame], inherited by every class: [get_frame_details(self.card)]. *)
Definition frame (self : Layout) : res FrameDetails.t :=
  do c <- card self;
  Ok (get_frame_details c).

(** [self.card_class]: a class attribute, or a property of [is_front]. *)
Definition card_class (self : Layout) : LayoutType.t :=
  match cls self with
  | Cls.NormalLayout | Cls.TokenLayout => LayoutType.Normal
  | Cls.MutateLayout => LayoutType.Mutate
  | Cls.PrototypeLayout => LayoutType.Prototype
  | Cls.PlaneswalkerLayout => LayoutType.Planeswalker
  | Cls.PlaneswalkerTransformLayout =>
      if NormalLayout_is_front self then LayoutType.PlaneswalkerTransformFront
      else LayoutType.PlaneswalkerTransformBack
  | Cls.PlaneswalkerMDFCLayout =>
      if NormalLayout_is_front self then LayoutType.PlaneswalkerMDFCFront
      else LayoutType.PlaneswalkerMDFCBack
  | Cls.TransformLayout =>
      if NormalLayout_is_front self then LayoutType.TransformFront
      else LayoutType.TransformBack
  | Cls.ModalDoubleFacedLayout =>
      if NormalLayout_is_front self then LayoutType.MDFCFront
      else LayoutType.MDFCBack
  | Cls.AdventureLayout => LayoutType.Adventure
  | Cls.LevelerLayout => LayoutType.Leveler
  | Cls.SagaLayout => LayoutType.Saga
  | Cls.ClassLayout => LayoutType.Class
  | Cls.CaseLayout => LayoutType.Case
  | Cls.BattleLayout => LayoutType.Battle
  | Cls.PlanarLayout => LayoutType.Planar
  | Cls.SplitLayout => LayoutType.Split
  | Cls.StationLayout => LayoutType.Station
  end.

(** *** SagaLayout *)

(** [_chapter_regex.match(s)] for the pattern [^[ ,IVXLCDM]+ — ]: one or
    more characters of the class, then a space, an em dash and a space.
    [chapter_regex_tail] is the state after at least one class character:
    the rest of the pattern matches here, or the class takes one more. *)
Definition in_chapter_class (c : char) : bool := N_in c (u " ,IVXLCDM").

Fixpoint chapter_regex_tail (s : str) : bool :=
  startswith (u " — ") s
  || match s with
     | [] => false
     | c :: s' => in_chapter_class c && chapter_regex_tail s'
     end.

Definition SagaLayout_chapter_regex (s : str) : bool :=
  match s with
  | [] => false
  | c :: s' => in_chapter_class c && chapter_regex_tail s'
  end.

(** [saga_text]: the chapter lines of the oracle text. *)
Definition SagaLayout_saga_text (self : Layout) : str :=
  join NL (List.filter SagaLayout_chapter_regex
             (splitlines (NormalLayout_oracle_text self))).

(** The loop of [ability_text]: from the first line that is not a chapter
    line, all the remaining lines ([lines[idx:]]). *)
Fixpoint ability_text_loop (lines : list str) : str :=
  match lines with
  | [] => []
  | line :: rest =>
      if negb (SagaLayout_chapter_regex line) then join NL lines
      else ability_text_loop rest
  end.

Definition SagaLayout_ability_text (self : Layout) : str :=
  let stripped := strip_lines1 (NormalLayout_oracle_text self) in
  ability_text_loop (splitlines stripped).

Definition SagaLayout_saga_description (self : Layout) : str :=
  if Config.remove_reminder CFG then []
  else
    let line := get_line0 (NormalLayout_oracle_text self) in
    if SagaLayout_chapter_regex line then [] else line.

(** [abilities[-1]['text'] += extra]. *)
Definition append_to_last_text (abilities : list SagaLine) (extra : str)
    : res (list SagaLine) :=
  match rev abilities with
  | [] => Raise IndexError
  | a :: before =>
      Ok (rev before
          ++ [mkSagaLine (saga_line_text a ++ extra) (saga_line_icons a)])
  end.

(** The loop of [saga_lines] over [enumerate(saga_text.split("\n"))]. *)
Fixpoint saga_lines_loop (i : nat) (lines : list str) (abilities : list SagaLine)
    : res (list SagaLine) :=
  match lines with
  | [] => Ok abilities
  | line :: rest =>
      if contains EM_DASH line then
        do '(icons, text) <- unpack2 (split1 EM_DASH line);
        saga_lines_loop (S i) rest
          (abilities ++ [mkSagaLine (strip text) (split (u ", ") (strip icons))])
      else if Nat.eqb i 0 then
        saga_lines_loop (S i) rest (abilities ++ [mkSagaLine line []])
      else
        do abilities' <- append_to_last_text abilities (NL ++ line);
        saga_lines_loop (S i) rest abilities'
  end.

Definition SagaLayout_saga_lines (self : Layout) : res (list SagaLine) :=
  saga_lines_loop 0 (split NL (SagaLayout_saga_text self)) [].

(** *** PlaneswalkerLayout *)

Definition MINUS_SIGN : str := [8722%N].

Definition PlaneswalkerLayout_oracle_text_raw (self : Layout) : str :=
  replace MINUS_SIGN (u "-") (NormalLayout_oracle_text_raw self).

Definition PlaneswalkerLayout_oracle_text (self : Layout) : str :=
  if NormalLayout_is_alt_lang self
  then replace MINUS_SIGN (u "-")
         (get (Face.printed_text (NormalLayout_card self))
              (get (Face.oracle_text (NormalLayout_card self)) []))
  else PlaneswalkerLayout_oracle_text_raw self.

(** The loop that re-partitions the alternate language lines: [all_lines]
    is the English list, taken whole when the break counts cannot be
    matched. *)
Fixpoint pw_alt_lines_loop (all_lines lines alt_lines new_lines : list str)
    : list str :=
  match lines with
  | [] => new_lines
  | line :: rest =>
      let breaks := count NL line + 1 in
      if empty alt_lines
         || negb (Z.of_nat (length alt_lines) >=? breaks)
      then all_lines
      else pw_alt_lines_loop all_lines rest
             (drop (Z.to_nat breaks) alt_lines)
             (new_lines ++ [join NL (take (Z.to_nat breaks) alt_lines)])
  end.

(** The ability dictionary built for one line: [line] is the displayed
    line, [en_line] the English line it corresponds to. *)
Definition pw_ability (line en_line : str) : res PwAbility :=
  let index_ := find (u ": ") en_line in
  if (5 >? index_) && (index_ >? 0) then
    do icon <- index en_line 0;
    Ok (mkPwAbility (lstrip (slice_from line (index_ + 1)))
                    (Some icon)
                    (Some (slice_to en_line index_)))
  else Ok (mkPwAbility line None None).

Fixpoint pw_abilities_loop (i : nat) (lines en_lines : list str)
    (abilities : list PwAbility) : res (list PwAbility) :=
  match lines with
  | [] => Ok abilities
  | line :: rest =>
      do en_line <- index en_lines i;
      do ability <- pw_ability line en_line;
      pw_abilities_loop (S i) rest en_lines (abilities ++ [ability])
  end.

Definition PlaneswalkerLayout_pw_abilities (self : Layout) : res (list PwAbility) :=
  let lines := PLANESWALKER_findall (PlaneswalkerLayout_oracle_text_raw self) in
  let en_lines := lines in
  let lines :=
    if NormalLayout_is_alt_lang self
       && bool_decide (is_Some (Face.printed_text (NormalLayout_card self)))
    then pw_alt_lines_loop lines lines
           (split NL (PlaneswalkerLayout_oracle_text self)) []
    else lines in
  pw_abilities_loop 0 lines en_lines [].

(** ** Joining dual layouts *)

(** The values the attribute [art_file] of an instance takes. *)
Inductive value :=
| VPath (p : Path)
| VList (l : list Path).

(** Iterating a value, as [*value] does inside a list display: a list
    yields its elements, a [Path] is not iterable. *)
Definition iter (v : value) : res (list Path) :=
  match v with
  | VList l => Ok l
  | VPath _ => Raise TypeError
  end.

(** An entry of the list given to [join_dual_card_layouts]: an error
    message, or a layout instance. An instance is a reference (its
    identity) together with the data it was constructed from. *)
Inductive item :=
| IStr (s : str)
| IObj (r : nat) (o : Layout).

Definition obj : Type := nat * Layout.

(** The store maps a reference to the value assigned to the attribute
    [art_file] of that instance, if one was assigned. [art_file] is a cached
    property, so an assigned value shadows it in the instance dictionary. *)
Abbreviation store := (gmap nat value).

(** [card.art_file] for a [SplitLayout] instance: the assigned value, or the
    property, [self.art_files[0]]. *)
Definition SplitLayout_art_file (σ : store) (card : obj) : res value :=
  match σ !! card.1 with
  | Some v => Ok v
  | None =>
      do p <- index (SplitLayout_art_files card.2) 0;
      Ok (VPath p)
  end.

Definition is_split (n : item) : bool :=
  match n with
  | IStr _ => false
  | IObj _ o => LayoutType.eqb (card_class o) LayoutType.Split
  end.

(** The list [split], with each entry known to be an instance. *)
Fixpoint split_of (layouts : list item) : list obj :=
  match layouts with
  | [] => []
  | IObj r o :: rest =>
      if LayoutType.eqb (card_class o) LayoutType.Split
      then (r, o) :: split_of rest
      else split_of rest
  | IStr _ :: rest => split_of rest
  end.

Definition normal_of (layouts : list item) : list item :=
  List.filter (fun n => negb (is_split n)) layouts.

Definition item_of (c : obj) : item := IObj c.1 c.2.

(** [x in skip] and [c == card]: the layout classes define no [__eq__], so
    instances compare by identity. *)
Definition same (c card : obj) : bool := Nat.eqb c.1 card.1.
Definition in_skip (card : obj) (skip : list nat) : bool :=
  existsb (Nat.eqb card.1) skip.

(** The value assigned to [card.art_file] when [c] is joined to [card]. *)
Definition joined_art_file (σ : store) (card c : obj) : res (list Path) :=
  do name <- SplitLayout_name card.2;
  do first <- index name 0;
  if str_eq (normalize_str [first])
            (normalize_str (CardDetails.name (file card.2)))
  then
    do a <- bind (SplitLayout_art_file σ card) iter;
    do b <- bind (SplitLayout_art_file σ c) iter;
    Ok (a ++ b)
  else
    do b <- bind (SplitLayout_art_file σ c) iter;
    do a <- bind (SplitLayout_art_file σ card) iter;
    Ok (b ++ a).

(** The inner loop, [for c in split], for a fixed [card]. *)
Fixpoint join_inner (card : obj) (cs : list obj) (σ : store) (skip : list nat)
    : res (store * list nat) :=
  match cs with
  | [] => Ok (σ, skip)
  | c :: rest =>
      if same c card then join_inner card rest σ skip
      else
        do str_c <- SplitLayout_str c.2;
        do str_card <- SplitLayout_str card.2;
        if str_eq str_c str_card then
          do v <- joined_art_file σ card c;
          join_inner card rest (<[card.1 := VList v]> σ) (skip ++ [card.1; c.1])
        else join_inner card rest σ skip
  end.

(** The outer loop, [for card in split]. *)
Fixpoint join_outer (split cards : list obj) (σ : store) (skip : list nat)
    (add : list obj) : res (store * list obj) :=
  match cards with
  | [] => Ok (σ, add)
  | card :: rest =>
      if in_skip card skip then join_outer split rest σ skip add
      else
        do '(σ', skip') <- join_inner card split σ skip;
        join_outer split rest σ' skip' (add ++ [card])
  end.

(** [join_dual_card_layouts(layouts)], from a store [σ]: the store after
    the call and the returned list. *)
Definition join_dual_card_layouts (σ : store) (layouts : list item)
    : res (store * list item) :=
  let normal := normal_of layouts in
  let split := split_of layouts in
  match split with
  | [] => Ok (σ, normal)
  | _ =>
      do '(σ', add) <- join_outer split split σ [] [];
      Ok (σ', normal ++ map item_of add)
  end.

End Layouts.

Abbreviation store := (gmap nat value).

(** ** Sample data *)

Module Samples.

(** A [normalize_str] for ASCII names: lower case, punctuation dropped. *)
Definition normalize_ascii (s : str) : str :=
  lower (List.filter
           (fun c => negb (N_in c (34%N :: u "!#$%&'()*+,-./:;<=>?@[\]^_`{|}~")))
           s).

Definition cfg : Config.t :=
  Config.mk (u "en") WatermarkMode.Fallback (u "wotc") false.

Definition plain_frame (f : Face.t) : FrameDetails.t :=
  FrameDetails.mk (u "") (u "") (u "") (u "") false false.

(** The set data of two sets: a main set with 230 printed cards, and its
    token set, which names the main set as its parent. *)
Definition set_data (code : str) : option SetData.t :=
  if str_eq code (u "apc") then Some (SetData.mk None (Some 230) None None)
  else if str_eq code (u "tapc")
  then Some (SetData.mk (Some (u "apc")) None None (Some 12))
  else None.

(** Watermark assets: two named watermarks, and a set symbol for every
    set code. *)
Definition watermark_svg (key : str) : option Path :=
  if str_eq key (u "wotc") || str_eq key (u "phyrexian")
  then Some (u "watermarks/" ++ key ++ u ".svg")
  else None.

Definition watermark_svg_from_set (code : str) : option Path :=
  Some (u "symbols/" ++ code ++ u "/WM.svg").

(** One line per paragraph, as the PLANESWALKER pattern yields on the
    samples below. *)
Definition env : Collaborators := {|
  CFG := cfg;
  CON_set_data := set_data;
  normalize_str := normalize_ascii;
  get_frame_details := plain_frame;
  get_watermark_svg := watermark_svg;
  get_watermark_svg_from_set := watermark_svg_from_set;
  get_cards_oracle := fun _ => [];
  PLANESWALKER_findall := split NL;
  TEXT_REMINDER_ENDING_match := fun _ => None |}.

Definition face (name : str) (text : str) : Face.t :=
  Face.mk name None None None None (Some text) None None None.

Definition record (name : str) (faces : option (list Face.t))
    (number : option str) (keywords : list str) (text : str) : Scryfall.t :=
  Scryfall.mk (face name text) faces (Some (u "apc")) number (Some (u "en"))
    (Some keywords) None None.

Definition details (name : str) : CardDetails.t :=
  CardDetails.mk name (u "art/" ++ name ++ u ".jpg") None None.

(** Fire // Ice, classified from the art files [Fire.jpg] and [Ice.jpg]. *)
Definition fire : Face.t := face (u "Fire") (u "Fire deals 2 damage.").
Definition ice : Face.t := face (u "Ice") (u "Tap target permanent.").
Definition fire_ice : Scryfall.t :=
  record (u "Fire // Ice") (Some [fire; ice]) (Some (u "128")) [] (u "").

Definition split_fire : Layout := mkLayout Cls.SplitLayout fire_ice (details (u "Fire")).
Definition split_ice : Layout := mkLayout Cls.SplitLayout fire_ice (details (u "Ice")).
Definition split_third : Layout := mkLayout Cls.SplitLayout fire_ice (details (u "Fire 2")).

(** A single-faced card printed with the given collector number. *)
Definition numbered (number : option str) : Layout :=
  mkLayout Cls.NormalLayout
    (record (u "Lightning Bolt") None number [] (u "Lightning Bolt deals 3 damage."))
    (details (u "Lightning Bolt")).

(** A Fuse card one half of which has two lines before the Fuse line. *)
Definition FUSE_LINE : str :=
  u "Fuse (You may cast one or both halves of this card from your hand.)".
Definition wear : Face.t :=
  face (u "Wear")
       (lines [u "Destroy target artifact."; u "Draw a card."; FUSE_LINE]).
Definition tear : Face.t :=
  face (u "Tear") (lines [u "Destroy target enchantment."; FUSE_LINE]).
Definition split_wear : Layout :=
  mkLayout Cls.SplitLayout
    (record (u "Wear // Tear") (Some [wear; tear]) (Some (u "222")) [u "Fuse"] (u ""))
    (details (u "Wear")).

(** Sagas. *)
Definition saga (text : str) : Layout :=
  mkLayout Cls.SagaLayout
    (record (u "A Saga") None (Some (u "7")) [] text) (details (u "A Saga")).

Definition saga_read_ahead : Layout :=
  saga (lines [u "Read ahead."; u "I — Draw a card.";
               u "II — Deal 2 damage."; u "III — Gain 3 life."]).

Definition saga_modal : Layout :=
  saga (lines [u "(As this Saga enters, add a lore counter.)";
               u "I — Choose one —"; u "• Draw a card."; u "• Gain 2 life.";
               u "II — Deal 2 damage."]).

(** A planeswalker. *)
Definition walker : Layout :=
  mkLayout Cls.PlaneswalkerLayout
    (record (u "A Walker") None (Some (u "1")) []
       (lines [u "Spells you cast cost {1} less.";
               u "+1: Draw a card."; u "−10: You win the game."]))
    (details (u "A Walker")).

(** The same planeswalker ability on a French printing, which sets a
    space before the colon. *)
Definition walker_fr : Layout :=
  mkLayout Cls.PlaneswalkerLayout
    (Scryfall.mk
       (Face.mk (u "A Walker") None None None None
          (Some (u "+1: Draw a card.")) (Some (u "+1 : Piochez une carte."))
          None None)
       None (Some (u "apc")) (Some (u "2")) (Some (u "fr")) (Some []) None None)
    (details (u "A Walker")).

(** A Split card whose first face has a watermark, and a token of the
    token set, with the key of the set symbol as its watermark. *)
Definition marked (name : str) (watermark : option str) : Face.t :=
  Face.mk name None None None None (Some (u "")) None None watermark.
Definition split_marked : Layout :=
  mkLayout Cls.SplitLayout
    (record (u "Odds // Ends")
       (Some [marked (u "Odds") (Some (u "Phyrexian")); marked (u "Ends") None])
       (Some (u "153")) [] (u ""))
    (details (u "Odds")).
Definition token : Layout :=
  mkLayout Cls.TokenLayout
    (Scryfall.mk (marked (u "Goblin") (Some (u "Symbol"))) None
       (Some (u "tapc")) (Some (u "3")) (Some (u "en")) (Some []) None None)
    (details (u "Goblin")).

(** A transforming card, classified from the art file of its back face. *)
Definition day : Face.t := face (u "Day Side") (u "Front text.").
Definition night : Face.t := face (u "Night Side") (u "Back text.").
Definition transform_night : Layout :=
  mkLayout Cls.TransformLayout
    (record (u "Day Side // Night Side") (Some [day; night]) (Some (u "5")) [] (u ""))
    (details (u "Night Side")).

(** Stores in which [art_file] already holds a list for the instances 1, 2
    and 3, as after an assignment. *)
Definition fire_jpg : Path := u "art/Fire.jpg".
Definition ice_jpg : Path := u "art/Ice.jpg".
Definition third_jpg : Path := u "art/Fire 2.jpg".
Definition lists_store : store :=
  <[1%nat := VList [fire_jpg]]>
    (<[2%nat := VList [ice_jpg]]> (<[3%nat := VList [third_jpg]]> ∅)).

End Samples.

(** ** More of the layout classes *)

(** [s.index(sub)]: as [find], but a missing substring is an error. *)
Definition str_index (sub s : str) : res Z :=
  let i := find sub s in
  if i <? 0 then Raise ValueError else Ok i.

(** [l.pop(0)], giving the popped element and the list that is left. *)
Definition pop0 {A} (l : list A) : res (A * list A) :=
  match l with
  | [] => Raise IndexError
  | a :: rest => Ok (a, rest)
  end.

(** [s.zfill(width)]: zeros are added on the left, after a leading sign. *)
Definition zfill (width : nat) (s : str) : str :=
  let pad := repeat 48%N (width - length s) in
  match s with
  | c :: rest =>
      if (c =? 43)%N || (c =? 45)%N then c :: pad ++ rest else pad ++ s
  | [] => pad
  end.

(** [l.remove(w)] for a [w] known to be in the list: its first occurrence
    goes. *)
Fixpoint remove_first (w : str) (l : list str) : list str :=
  match l with
  | [] => []
  | x :: rest => if str_eq x w then rest else x :: remove_first w rest
  end.

(** The dictionaries built by [stations] and [class_lines]. *)
Record StationDetails := mkStationDetails {
  station_requirement : str;
  station_ability : str;
  station_pt : option (str * str) }.

(** The level of a class ability: the integer 1 of the first ability, or
    the text captured by the pattern. *)
Inductive ClassLevel :=
| LevelInt (n : Z)
| LevelStr (s : str).

Record ClassLine := mkClassLine {
  class_line_text : str;
  class_line_cost : option str;
  class_line_level : ClassLevel }.

(** What the collector and class properties consume from the rest of the
    application: whether the collector mode setting is the Normal one, the
    interpreted rarity of a layout, and the groups of a match of the CLASS
    pattern. *)
Class MoreCollaborators := {
  collector_mode_is_normal : bool;
  rarity : Layout -> str;
  CLASS_match_groups : str -> option (list str) }.

Section MoreLayouts.
Context `{Collaborators} `{MoreCollaborators}.

(** *** NormalLayout, continued *)

(** The loop of [artist] over the words of the name: a word seen before
    is removed from [count], then the word is appended. *)
Fixpoint artist_loop (words count : list str) : list str :=
  match words with
  | [] => count
  | w :: rest =>
      artist_loop rest
        ((if existsb (str_eq w) count then remove_first w count else count)
         ++ [w])
  end.

(** [NormalLayout.artist] and [SplitLayout.artist] share one body; they
    differ in the dictionary the artist is read from ([self.card] or
    [self.scryfall]). [listed] is that dictionary's ['artist'] value. *)
Definition artist_of (given listed : option str) : str :=
  if truthy_opt given then get given []
  else
    let artist := get listed (u "Unknown") in
    if contains (u "&") artist
    then join (u " ") (artist_loop (split (u " ") artist) [])
    else artist.

Definition NormalLayout_artist (self : Layout) (listed : option str) : str :=
  artist_of (CardDetails.artist (file self)) listed.

(** [SplitLayout.name_raw]: the first two characters of [name], which is
    a string, around [" _ "]. *)
Definition SplitLayout_name_raw (self : Layout) : res str :=
  do name <- SplitLayout_name self;
  do first <- index name 0;
  do second <- index name 1;
  Ok ([first] ++ u " _ " ++ [second]).

(** [self.name_raw]: [SplitLayout] overrides it, the other classes inherit
    [NormalLayout.name_raw]. *)
Definition name_raw (self : Layout) : res str :=
  match cls self with
  | Cls.SplitLayout => SplitLayout_name_raw self
  | _ => Ok (NormalLayout_name_raw self)
  end.

(** [other_face], inherited by every class: the first face whose name is
    not [self.name_raw], which is read when the loop meets a first face;
    [None] stands for the empty dictionary. *)
Fixpoint other_face_loop (faces : list Face.t) (name_raw : str) : option Face.t :=
  match faces with
  | [] => None
  | face :: rest =>
      if negb (str_eq (Face.name face) name_raw) then Some face
      else other_face_loop rest name_raw
  end.

Definition NormalLayout_other_face (self : Layout) : res (option Face.t) :=
  match get (Scryfall.card_faces (scryfall self)) [] with
  | [] => Ok None
  | faces =>
      do name_raw <- name_raw self;
      Ok (other_face_loop faces name_raw)
  end.

(** [rarity_letter]: the first letter of the rarity, in upper case. *)
Definition NormalLayout_rarity_letter (self : Layout) : res str :=
  do c <- index (rarity self) 0;
  Ok (upper [c]).

(** [card_count]. *)
Definition NormalLayout_card_count (self : Layout) : res (option Z) :=
  if negb collector_mode_is_normal
     || negb (truthy_opt (NormalLayout_collector_number_raw self))
  then Ok None
  else
    let count :=
      match SetData.count_printed (NormalLayout_set_data self) with
      | Some c => Some c
      | None => SetData.count_cards (NormalLayout_set_data self)
      end in
    match count with
    | None => Ok None
    | Some c =>
        do number <- NormalLayout_collector_number self;
        Ok (if c >=? number then Some c else None)
    end.

(** Truthiness of [card_count]: present and not zero. *)
Definition count_truthy (c : option Z) : bool :=
  match c with
  | Some n => negb (n =? 0)
  | None => false
  end.

(** [collector_data]. *)
Definition NormalLayout_collector_data (self : Layout) : res str :=
  do count <- NormalLayout_card_count self;
  if count_truthy count then
    do number <- NormalLayout_collector_number self;
    do letter <- NormalLayout_rarity_letter self;
    Ok (zfill 3 (str_of_int number) ++ u "/"
        ++ zfill 3 (str_of_int (get count 0)) ++ u " " ++ letter)
  else if truthy_opt (NormalLayout_collector_number_raw self) then
    do letter <- NormalLayout_rarity_letter self;
    do number <- NormalLayout_collector_number self;
    Ok (letter ++ u " " ++ zfill 4 (str_of_int number))
  else Ok [].

(** *** TokenLayout *)

(** [TokenLayout.card_count]: the token count of the set data, whatever
    the collector number. *)
Definition TokenLayout_card_count (self : Layout) : res (option Z) :=
  if negb collector_mode_is_normal
     || negb (truthy_opt (NormalLayout_collector_number_raw self))
  then Ok None
  else Ok (SetData.count_tokens (NormalLayout_set_data self)).

(** [TokenLayout.collector_data]: the rarity letter is always T. *)
Definition TokenLayout_collector_data (self : Layout) : res str :=
  do count <- TokenLayout_card_count self;
  if count_truthy count then
    do number <- NormalLayout_collector_number self;
    Ok (zfill 3 (str_of_int number) ++ u "/"
        ++ zfill 3 (str_of_int (get count 0)) ++ u " T")
  else if truthy_opt (NormalLayout_collector_number_raw self) then
    do number <- NormalLayout_collector_number self;
    Ok (u "T " ++ zfill 4 (str_of_int number))
  else Ok [].

(** [self.card_count] and [self.collector_data]: [TokenLayout] overrides
    both, the other classes inherit the [NormalLayout] bodies. *)
Definition card_count (self : Layout) : res (option Z) :=
  match cls self with
  | Cls.TokenLayout => TokenLayout_card_count self
  | _ => NormalLayout_card_count self
  end.

Definition collector_data (self : Layout) : res str :=
  match cls self with
  | Cls.TokenLayout => TokenLayout_collector_data self
  | _ => NormalLayout_collector_data self
  end.

(** *** MutateLayout *)

Definition MutateLayout_oracle_text_unprocessed (self : Layout) : str :=
  if NormalLayout_is_alt_lang self
  then get (Face.printed_text (NormalLayout_card self))
           (NormalLayout_oracle_text_raw self)
  else NormalLayout_oracle_text_raw self.

Definition MutateLayout_oracle_text (self : Layout) : str :=
  strip_lines1 (MutateLayout_oracle_text_unprocessed self).

Definition MutateLayout_mutate_text (self : Layout) : str :=
  get_line0 (MutateLayout_oracle_text_unprocessed self).

(** *** CaseLayout *)

Definition CaseLayout_case_lines (self : Layout) : list str :=
  split NL (NormalLayout_oracle_text self).

(** *** ClassLayout *)

Definition ClassLayout_class_text (self : Layout) : str :=
  if Config.remove_reminder CFG then NormalLayout_oracle_text self
  else strip_lines1 (NormalLayout_oracle_text self).

(** [["\n".join(lines[i:i + 2]) for i in range(0, len(lines), 2)]]. *)
Fixpoint line_pairs (ls : list str) : list str :=
  match ls with
  | [] => []
  | [a] => [a]
  | a :: b :: rest => (a ++ NL ++ b) :: line_pairs rest
  end.

(** [abilities[-1]['text'] += extra]. *)
Definition class_append_to_last (abilities : list ClassLine) (extra : str)
    : res (list ClassLine) :=
  match rev abilities with
  | [] => Raise IndexError
  | a :: before =>
      Ok (rev before
          ++ [mkClassLine (class_line_text a ++ extra)
                (class_line_cost a) (class_line_level a)])
  end.

(** The loop of [class_lines] over the pairs of lines. [details[k]] is the
    k-th group of the match. *)
Fixpoint class_lines_loop (pairs : list str) (abilities : list ClassLine)
    : res (list ClassLine) :=
  match pairs with
  | [] => Ok abilities
  | line :: rest =>
      match CLASS_match_groups line with
      | Some groups =>
          if 3 <=? Z.of_nat (length groups) then
            do cost <- index groups 0;
            do level <- index groups 1;
            do text <- index groups 2;
            class_lines_loop rest
              (abilities ++ [mkClassLine text (Some cost) (LevelStr level)])
          else
            do abilities' <- class_append_to_last abilities (NL ++ line);
            class_lines_loop rest abilities'
      | None =>
          do abilities' <- class_append_to_last abilities (NL ++ line);
          class_lines_loop rest abilities'
      end
  end.

Definition ClassLayout_class_lines (self : Layout) : res (list ClassLine) :=
  do '(initial, ls) <- pop0 (split NL (ClassLayout_class_text self));
  class_lines_loop (line_pairs ls) [mkClassLine initial None (LevelInt 1)].

(** *** StationLayout *)

Definition STATION_MARKER : str := NL ++ u "STATION ".

(** [_pt_pattern.match(line)] for the pattern [([0-9]+)/([0-9]+)]: the two
    groups, the longest runs of digits around the slash. *)
Fixpoint digit_run (s : str) : str * str :=
  match s with
  | [] => ([], [])
  | c :: s' =>
      if ascii_digit c then let '(run, rest) := digit_run s' in (c :: run, rest)
      else ([], s)
  end.

Definition StationLayout_pt_pattern (line : str) : option (str * str) :=
  let '(power, rest) := digit_run line in
  match power, rest with
  | _ :: _, slash :: rest' =>
      if (slash =? 47)%N then
        let '(toughness, _) := digit_run rest' in
        if truthy toughness then Some (power, toughness) else None
      else None
  | _, _ => None
  end.

Definition StationLayout_oracle_text_unprocessed (self : Layout) : str :=
  if NormalLayout_is_alt_lang self
  then get (Face.printed_text (NormalLayout_card self))
           (NormalLayout_oracle_text_raw self)
  else NormalLayout_oracle_text_raw self.

Definition StationLayout_oracle_text (self : Layout) : res str :=
  do stations_start <-
    str_index STATION_MARKER (StationLayout_oracle_text_unprocessed self);
  Ok (slice_to (StationLayout_oracle_text_unprocessed self) stations_start).

(** The loop over the lines of one station, after the requirement. *)
Fixpoint station_lines_loop (ls : list str) (details : StationDetails)
    : StationDetails :=
  match ls with
  | [] => details
  | line :: rest =>
      match StationLayout_pt_pattern line with
      | Some pt =>
          station_lines_loop rest
            (mkStationDetails (station_requirement details)
               (station_ability details) (Some pt))
      | None =>
          station_lines_loop rest
            (mkStationDetails (station_requirement details)
               (station_ability details ++ line ++ NL) (station_pt details))
      end
  end.

(** The loop over the pieces between the STATION markers. *)
Fixpoint stations_loop (splits : list str) (out : list StationDetails)
    : res (list StationDetails) :=
  match splits with
  | [] => Ok out
  | piece :: rest =>
      let stripped := strip piece in
      if truthy stripped then
        do '(requirement, ls) <- pop0 (split NL stripped);
        let details :=
          station_lines_loop ls (mkStationDetails requirement [] None) in
        stations_loop rest
          (out ++ [mkStationDetails (station_requirement details)
                     (strip (station_ability details)) (station_pt details)])
      else stations_loop rest out
  end.

Definition StationLayout_stations (self : Layout) : res (list StationDetails) :=
  do stations_start <-
    str_index STATION_MARKER (StationLayout_oracle_text_unprocessed self);
  stations_loop
    (split (u "STATION ")
       (slice_from (StationLayout_oracle_text_unprocessed self) stations_start))
    [].

End MoreLayouts.

(** *** Vocabulary of the properties of these classes *)

(** The shape of the two groups of a power/toughness match. *)
Definition digits (s : str) : Prop := s <> [] /\ forallb ascii_digit s = true.

(** What every entry of [stations] satisfies. *)
Definition station_well_formed (d : StationDetails) : Prop :=
  station_requirement d <> []
  /\ ~ In 10%N (station_requirement d)
  /\ strip (station_ability d) = station_ability d
  /\ match station_pt d with
     | Some (power, toughness) => digits power /\ digits toughness
     | None => True
     end.

Section MoreVocabulary.
Context `{MoreCollaborators}.

(** A pair of lines that opens a level: the CLASS pattern matches it, with
    its three groups. *)
Definition class_level_up (line : str) : bool :=
  match CLASS_match_groups line with
  | Some groups => 3 <=? Z.of_nat (length groups)
  | None => false
  end.

End MoreVocabulary.

(** More sample data. *)
Module MoreSamples.

(** A CLASS pattern for the samples: a cost, ": Level ", one digit, a line
    break and the text of the level. *)
Definition class_groups (line : str) : option (list str) :=
  let i := find (u ": Level ") line in
  if 0 <? i then
    match slice_from line (i + 8) with
    | level :: nl :: text =>
        if ascii_digit level && (nl =? 10)%N && truthy text
        then Some [slice_to line i; [level]; text]
        else None
    | _ => None
    end
  else None.

Definition more_env : MoreCollaborators := {|
  collector_mode_is_normal := true;
  rarity := fun _ => u "mythic";
  CLASS_match_groups := class_groups |}.

(** A class card with two levels to gain. *)
Definition class_card : Layout :=
  mkLayout Cls.ClassLayout
    (Samples.record (u "A Class") None (Some (u "12")) []
       (lines [u "(Gain the next level as a sorcery to add its ability.)";
               u "When this Class enters, draw a card.";
               u "{1}{U}: Level 2"; u "You have no maximum hand size.";
               u "{3}{U}: Level 3"; u "Draw two cards."]))
    (Samples.details (u "A Class")).

(** A station card with two levels, the second with power and toughness. *)
Definition station : Layout :=
  mkLayout Cls.StationLayout
    (Samples.record (u "A Station") None (Some (u "050")) []
       (lines [u "Flying"; u "STATION 3+"; u "Draw a card.";
               u "STATION 8+"; u "Trample"; u "5/6"]))
    (Samples.details (u "A Station")).

(** A mutate card and a case. *)
Definition mutate : Layout :=
  mkLayout Cls.MutateLayout
    (Samples.record (u "A Mutant") None (Some (u "9")) []
       (lines [u "Mutate {2}{G}"; u "Trample"; u "Whenever this creature mutates, draw a card."]))
    (Samples.details (u "A Mutant")).

End MoreSamples.

(** ** Vocabulary of the properties *)

(** The lines from the first one that is not a chapter line. *)
Fixpoint dropwhile_chapters (ls : list str) : list str :=
  match ls with
  | [] => []
  | l :: rest =>
      if SagaLayout_chapter_regex l then dropwhile_chapters rest else ls
  end.

(** The four-mode policy, as a function of the asset found for the face's
    own key and of the asset found for the configured default key. *)
Definition watermark_policy (mode : WatermarkMode.t)
    (own default_ : option Path) : option Path :=
  match mode with
  | WatermarkMode.Disabled => None
  | WatermarkMode.Forced => default_
  | WatermarkMode.Automatic => own
  | WatermarkMode.Fallback =>
      match own with
      | Some path => Some path
      | None => default_
      end
  end.

(** A chapter line: one or more characters among space, comma and the
    roman numerals, then " — ", then anything. *)
Definition ChapterLine (line : str) : Prop :=
  exists numerals rest,
    numerals <> []
    /\ Forall (fun c => In c (u " ,IVXLCDM")) numerals
    /\ line = numerals ++ u " — " ++ rest.

(** The entry built from a chapter line: the line is cut at its first em
    dash, the icons are the comma-separated tokens before it, the text is
    what follows it. *)
Definition ChapterEntry (line : str) (entry : SagaLine) : Prop :=
  exists icons_part text_part,
    line = icons_part ++ EM_DASH ++ text_part
    /\ ~ In 8212%N icons_part
    /\ entry = mkSagaLine (strip text_part) (split (u ", ") (strip icons_part)).

(** The number of lines of a paragraph. *)
Definition line_count (paragraph : str) : nat := length (split NL paragraph).

(** The printed lines dealt out to the English paragraphs, in order: each
    paragraph takes as many printed lines as it has lines itself. *)
Fixpoint repartition (en_lines alt_lines : list str) : list str :=
  match en_lines with
  | [] => []
  | en_line :: rest =>
      join NL (take (line_count en_line) alt_lines)
      :: repartition rest (drop (line_count en_line) alt_lines)
  end.

Section Vocabulary.
Context `{Collaborators}.

(** The resolution of a watermark key: no key, or an empty one, resolves to
    nothing; ["set"] is the symbol of the set of the first printing (of the
    layout's own set if no first printing or no set code of it is known),
    ["symbol"] the symbol of the layout's own set; any other key is looked
    up as it is. Keys are compared in lower case. *)
Definition resolve_key (self : Layout) (key : option str) : option Path :=
  match key with
  | None | Some [] => None
  | Some key =>
      if str_eq (lower key) (u "set") then
        get_watermark_svg_from_set
          (get (NormalLayout_first_print self ≫= Scryfall.set) (set self))
      else if str_eq (lower key) (u "symbol") then
        get_watermark_svg_from_set (set self)
      else get_watermark_svg (lower key)
  end.

(** The paragraphs a Planeswalker's abilities are displayed with: the
    English paragraphs found by the PLANESWALKER pattern, unless the card is
    printed in another language and has a printed text; then the lines of
    the printed text, re-partitioned after the English paragraphs, or the
    English paragraphs again if the printed text has too few lines. *)
Definition displayed_lines (self : Layout) : list str :=
  let en_lines := PLANESWALKER_findall (PlaneswalkerLayout_oracle_text_raw self) in
  match Face.printed_text (NormalLayout_card self) with
  | Some printed =>
      if NormalLayout_is_alt_lang self then
        let alt_lines := split NL (replace MINUS_SIGN (u "-") printed) in
        if (list_sum (map line_count en_lines) <=? length alt_lines)%nat
        then repartition en_lines alt_lines
        else en_lines
      else en_lines
  | None => en_lines
  end.

(** Two instances have display strings, and different ones. *)
Definition keys_differ (x y : obj) : Prop :=
  exists s1 s2,
    SplitLayout_str x.2 = Ok s1 /\ SplitLayout_str y.2 = Ok s2 /\ s1 <> s2.

(** No two distinct instances of the list share a display string. *)
Definition distinct_keys (l : list obj) : Prop :=
  forall x y, In x l -> In y l -> x.1 <> y.1 -> keys_differ x y.

(** The instance [r] is alone with its display string among the Split
    instances of the batch. *)
Definition lone (layouts : list item) (r : nat) : Prop :=
  forall x c, In x (split_of layouts) -> In c (split_of layouts) ->
    x.1 = r -> c.1 <> r -> keys_differ c x.

End Vocabulary.

(** The class name of the exception an outcome raises, if it raises. *)
Definition raised {A} (r : res A) : option string :=
  match r with
  | Raise e => Some (exn_name e)
  | Ok _ => None
  end.

(** ** Properties *)

Section Properties.
Context `{Collaborators}.

(** *** Collector number *)

(** The decimal value of a character is a digit, 0 to 9. *)
Lemma decimal_range (c : char) (d : Z) : decimal c = Some d -> 0 <= d <= 9.
Proof.
  unfold decimal. induction decimal_zeros as [|z zeros IH]; simpl;
    [discriminate|].
  destruct ((z <=? c)%N && (c <=? z + 9)%N) eqn:E; [|exact IH].
  apply andb_prop in E as [E1 E2].
  apply N.leb_le in E1. apply N.leb_le in E2. intros [= <-]. lia.
Qed.

(** An integer read by [int] is never negative. *)
Lemma int_nonneg (s : str) (n : Z) : int s = Ok n -> 0 <= n.
Proof.
  assert (Hgo : forall l acc m, 0 <= acc -> int_go l acc = Ok m -> 0 <= m).
  { induction l as [|c l IH]; intros acc m Hacc; simpl.
    - intros [= <-]. exact Hacc.
    - destruct (decimal c) as [d|] eqn:Ed; [|discriminate].
      apply decimal_range in Ed. apply IH. lia. }
  unfold int. destruct s as [|c s]; [discriminate|]. apply Hgo. lia.
Qed.

(** Where [collector_number] returns and where it raises: an absent or
    empty raw number gives 0, a non-empty one without any digit raises
    [ValueError], and an integer that is returned is never negative. *)
Lemma collector_number_cases (self : Layout) :
  match NormalLayout_collector_number_raw self with
  | None => NormalLayout_collector_number self = Ok 0
  | Some raw =>
      if empty raw then NormalLayout_collector_number self = Ok 0
      else if empty (List.filter isdigit raw)
           then NormalLayout_collector_number self = Raise ValueError
           else forall n, NormalLayout_collector_number self = Ok n -> 0 <= n
  end.
Proof.
  unfold NormalLayout_collector_number.
  destruct (NormalLayout_collector_number_raw self) as [raw|]; simpl; [|reflexivity].
  destruct raw as [|c raw]; [reflexivity|].
  change (truthy (c :: raw)) with true. cbv iota.
  destruct (List.filter isdigit (c :: raw)) as [|d ds] eqn:E; [reflexivity|].
  change (empty (d :: ds)) with false. cbv iota.
  intros n. apply int_nonneg.
Qed.

(** An integer returned by [collector_number] is never negative. *)
Lemma collector_number_nonneg (self : Layout) (n : Z) :
  NormalLayout_collector_number self = Ok n -> 0 <= n.
Proof.
  unfold NormalLayout_collector_number.
  destruct (truthy_opt (NormalLayout_collector_number_raw self)).
  - apply int_nonneg.
  - intros [= <-]. lia.
Qed.

(** C5. [collector_number] is 0 for an absent raw number and 7 for the raw
    number "7★", but for the raw number "★", a non-empty string without a
    digit, it raises [ValueError] instead of yielding an integer. *)
Theorem collector_number_without_digit_raises :
  NormalLayout_collector_number (Samples.numbered None) = Ok 0
  /\ NormalLayout_collector_number (Samples.numbered (Some (u "7★"))) = Ok 7
  /\ NormalLayout_collector_number (Samples.numbered (Some (u "★")))
     = Raise ValueError.
Proof. repeat split; reflexivity. Qed.

(** *** Watermarks *)

Lemma watermark_svgs_loop_map (self : Layout) (ws : list str)
    (acc : list (option Path)) :
  SplitLayout_watermark_svgs_loop self ws acc
  = acc ++ map (SplitLayout_watermark_svg_for self) ws.
Proof.
  revert acc. induction ws as [|w ws IH]; intros acc; simpl.
  - now rewrite app_nil_r.
  - rewrite IH, <- app_assoc. reflexivity.
Qed.

(** The helper of the source resolves keys as [resolve_key] says. *)
Lemma find_watermark_svg_resolves (self : Layout) (key : option str) :
  find_watermark_svg self key = resolve_key self key.
Proof.
  unfold find_watermark_svg, resolve_key.
  destruct key as [[|c key]|]; try reflexivity.
  change (truthy_opt (Some (c :: key))) with true.
  cbn [negb get default from_option]. unfold id.
  destruct (str_eq (lower (c :: key)) (u "set")) eqn:Es.
  - cbn [orb]. destruct (NormalLayout_first_print self); reflexivity.
  - cbn [orb]. destruct (str_eq (lower (c :: key)) (u "symbol")); reflexivity.
Qed.

(** C4. The watermark of a face follows the four-mode policy: none when
    Disabled; the configured default key, resolved, when Forced; the face's
    own raw key, resolved, when Automatic, none if it is absent or not
    found; the face's own raw key, then the configured default key if
    nothing was found, when Fallback. Keys are resolved by the two asset
    lookups, as [resolve_key] says. [watermark_svgs] applies the same policy
    to each face of a Split card. *)
Theorem watermark_svg_policy (self : Layout) :
  let mode := Config.watermark_mode CFG in
  let default_ := resolve_key self (Some (Config.watermark_default CFG)) in
  NormalLayout_watermark_svg self
  = watermark_policy mode
      (resolve_key self (Face.watermark (NormalLayout_card self))) default_
  /\ SplitLayout_watermark_svgs self
     = map (fun c => watermark_policy mode
                       (resolve_key self (Face.watermark c)) default_)
           (SplitLayout_cards self).
Proof.
  intros mode default_. subst mode default_. split.
  - unfold NormalLayout_watermark_svg, watermark_policy,
      NormalLayout_watermark_raw.
    rewrite !find_watermark_svg_resolves.
    destruct (Config.watermark_mode CFG); simpl; try reflexivity;
      destruct (resolve_key self (Face.watermark (NormalLayout_card self)));
      reflexivity.
  - unfold SplitLayout_watermark_svgs, SplitLayout_watermarks_raw.
    rewrite watermark_svgs_loop_map, map_map. simpl.
    apply map_ext. intros c.
    unfold SplitLayout_watermark_svg_for, watermark_policy.
    rewrite !find_watermark_svg_resolves.
    replace (resolve_key self (Some (get (Face.watermark c) [])))
      with (resolve_key self (Face.watermark c))
      by (destruct (Face.watermark c); reflexivity).
    destruct (Config.watermark_mode CFG); simpl; try reflexivity;
      destruct (resolve_key self (Face.watermark c)); reflexivity.
Qed.

(** *** Split cards with Fuse *)

Lemma oracle_texts_loop_map (self : Layout) (ts acc : list str) :
  SplitLayout_oracle_texts_loop self ts acc
  = acc ++ map (SplitLayout_oracle_text_for self) ts.
Proof.
  revert acc. induction ts as [|t ts IH]; intros acc; simpl.
  - now rewrite app_nil_r.
  - rewrite IH, <- app_assoc. reflexivity.
Qed.

Lemma join_empty_concat (ls : list str) : join [] ls = concat ls.
Proof.
  induction ls as [|x [|y ls] IH]; simpl in *.
  - reflexivity.
  - now rewrite app_nil_r.
  - now rewrite IH.
Qed.

(** With Fuse among the keywords, each text is the concatenation, without
    any separator, of its lines but the last; the shared reminder is not
    looked at. *)
Lemma fuse_oracle_texts (self : Layout) :
  has_fuse self = true ->
  SplitLayout_oracle_texts self
  = map (fun t => concat (but_last (split NL t))) (SplitLayout_face_texts self).
Proof.
  intros Hf. unfold SplitLayout_oracle_texts.
  rewrite oracle_texts_loop_map. simpl. apply map_ext. intros t.
  unfold SplitLayout_oracle_text_for. rewrite Hf. apply join_empty_concat.
Qed.

(** C6. On a Fuse card whose first half reads "Destroy target artifact.",
    "Draw a card." and the Fuse line, [oracle_texts] drops the Fuse line but
    also the line break between the two remaining lines: the first element is
    "Destroy target artifact.Draw a card.", not the two lines. *)
Theorem fuse_oracle_texts_drop_line_breaks :
  has_fuse Samples.split_wear = true
  /\ SplitLayout_oracle_texts Samples.split_wear
     = [u "Destroy target artifact.Draw a card."; u "Destroy target enchantment."]
  /\ SplitLayout_oracle_texts Samples.split_wear
     <> [lines [u "Destroy target artifact."; u "Draw a card."];
         u "Destroy target enchantment."].
Proof.
  split; [reflexivity|].
  assert (E : SplitLayout_oracle_texts Samples.split_wear
              = [u "Destroy target artifact.Draw a card.";
                 u "Destroy target enchantment."]).
  { rewrite fuse_oracle_texts by reflexivity. vm_compute. reflexivity. }
  split; [exact E|]. rewrite E. vm_compute. discriminate.
Qed.

(** *** Saga ability text *)

Lemma ability_text_loop_suffix (ls : list str) :
  ability_text_loop ls
  = join NL (dropwhile_chapters ls).
Proof.
  induction ls as [|l ls IH]; simpl; [reflexivity|].
  destruct (SagaLayout_chapter_regex l); simpl; [exact IH|reflexivity].
Qed.

(** C8. On a Saga whose first chapter has two bulleted lines, [ability_text]
    is every line from the first bulleted line on: it contains the chapter
    line "II — Deal 2 damage.", which matches the chapter pattern. *)
Theorem ability_text_keeps_later_chapter_lines :
  SagaLayout_chapter_regex (u "II — Deal 2 damage.") = true
  /\ SagaLayout_ability_text Samples.saga_modal
     = lines [u "• Draw a card."; u "• Gain 2 life."; u "II — Deal 2 damage."]
  /\ SagaLayout_ability_text Samples.saga_modal
     <> lines [u "• Draw a card."; u "• Gain 2 life."].
Proof.
  split; [reflexivity|].
  assert (E : SagaLayout_ability_text Samples.saga_modal
              = lines [u "• Draw a card."; u "• Gain 2 life.";
                       u "II — Deal 2 damage."]).
  { vm_compute. reflexivity. }
  split; [exact E|]. rewrite E. vm_compute. discriminate.
Qed.

(** *** Facts about [find] *)

Lemma startswith_app (sub s : str) :
  startswith sub s = true -> s = sub ++ drop (length sub) s.
Proof.
  revert s. induction sub as [|a sub IH]; intros [|b s]; simpl;
    try discriminate; try reflexivity.
  intros Hs. apply andb_prop in Hs as [E Hs]. apply N.eqb_eq in E. subst b.
  f_equal. apply IH, Hs.
Qed.

Lemma startswith_prefix (sub rest : str) : startswith sub (sub ++ rest) = true.
Proof.
  induction sub as [|a sub IH]; simpl; [reflexivity|].
  now rewrite N.eqb_refl, IH.
Qed.

Lemma find_from_range (sub s : str) (k : Z) :
  find_from sub s k = -1
  \/ k <= find_from sub s k <= k + Z.of_nat (length s).
Proof.
  revert k. induction s as [|c s IH]; intros k; simpl.
  - destruct (startswith sub []); [right; lia|left; reflexivity].
  - destruct (startswith sub (c :: s)); [right; lia|].
    destruct (IH (k + 1)) as [E|E]; [left; exact E|right; lia].
Qed.

(** A found position cuts the string around the first occurrence. *)
Lemma find_from_split (sub s : str) (k p : Z) :
  find_from sub s k = p -> 0 <= k -> k <= p ->
  s = take (Z.to_nat (p - k)) s ++ sub ++ drop (Z.to_nat (p - k) + length sub) s.
Proof.
  revert k. induction s as [|c s IH]; intros k Hf Hk Hp; simpl in Hf.
  - destruct (startswith sub []) eqn:E; [|lia].
    subst p. replace (Z.to_nat (k - k)) with 0%nat by lia.
    simpl. apply startswith_app, E.
  - destruct (startswith sub (c :: s)) eqn:E.
    + subst p. replace (Z.to_nat (k - k)) with 0%nat by lia.
      simpl take. simpl app at 1. apply startswith_app, E.
    + destruct (find_from_range sub s (k + 1)) as [R|R]; [lia|].
      replace (Z.to_nat (p - k)) with (S (Z.to_nat (p - (k + 1)))) by lia.
      simpl. f_equal. apply IH; [exact Hf|lia|lia].
Qed.

Lemma find_split (sub s : str) :
  0 <= find sub s ->
  s = slice_to s (find sub s) ++ sub
      ++ slice_from s (find sub s + Z.of_nat (length sub))
  /\ length (slice_to s (find sub s)) = Z.to_nat (find sub s).
Proof.
  intros Hp. unfold slice_to, slice_from.
  pose proof (find_from_split sub s 0 (find sub s) eq_refl ltac:(lia) Hp) as E.
  rewrite Z.sub_0_r in E.
  replace (Z.to_nat (find sub s + Z.of_nat (length sub)))
    with (Z.to_nat (find sub s) + length sub)%nat by lia.
  split; [exact E|].
  rewrite length_take.
  destruct (find_from_range sub s 0) as [R|R]; unfold find in *; lia.
Qed.

Lemma find_positive_nonempty (sub s : str) : 0 < find sub s -> s <> [].
Proof.
  intros Hp ->. unfold find in Hp. simpl in Hp.
  destruct (startswith sub []); lia.
Qed.

(** *** Planeswalker abilities *)

Lemma split_NL_cons (c : char) (s : str) :
  split NL (c :: s)
  = if (10 =? c)%N then [] :: split NL s
    else match split NL s with
         | p :: ps => (c :: p) :: ps
         | [] => [[c]]
         end.
Proof.
  unfold split. cbn [split_go NL startswith length Nat.sub].
  destruct (10 =? c)%N; reflexivity.
Qed.

Lemma split_NL_nonempty (s : str) : split NL s <> [].
Proof.
  induction s as [|c s IH]; [discriminate|].
  rewrite split_NL_cons. destruct (10 =? c)%N; [discriminate|].
  destruct (split NL s); discriminate.
Qed.

(** A paragraph has at least one line. *)
Lemma line_count_positive (paragraph : str) : (1 <= line_count paragraph)%nat.
Proof.
  unfold line_count. pose proof (split_NL_nonempty paragraph).
  destruct (split NL paragraph); [congruence|simpl; lia].
Qed.

Lemma repartition_length (en_lines alt_lines : list str) :
  length (repartition en_lines alt_lines) = length en_lines.
Proof.
  revert alt_lines. induction en_lines as [|l ls IH]; intros alt_lines; simpl;
    [reflexivity|]. now rewrite IH.
Qed.

(** The loop of the source deals the printed lines out as [repartition]
    does, when there are enough of them. *)
Lemma pw_alt_lines_loop_repartition (all_lines ls alt_lines new_lines : list str) :
  pw_alt_lines_loop all_lines ls alt_lines new_lines
  = if (list_sum (map line_count ls) <=? length alt_lines)%nat
    then new_lines ++ repartition ls alt_lines
    else all_lines.
Proof.
  revert alt_lines new_lines.
  induction ls as [|l ls IH]; intros alt_lines new_lines.
  - simpl. now rewrite app_nil_r.
  - cbn [pw_alt_lines_loop map repartition].
    change (list_sum (line_count l :: map line_count ls))
      with (line_count l + list_sum (map line_count ls))%nat.
    pose proof (line_count_positive l) as Hpos.
    assert (Hb : count NL l + 1 = Z.of_nat (line_count l))
      by (unfold count, line_count; lia).
    rewrite Hb, Nat2Z.id.
    destruct (empty alt_lines
              || negb (Z.of_nat (length alt_lines) >=? Z.of_nat (line_count l)))
      eqn:E.
    + replace (line_count l + list_sum (map line_count ls)
               <=? length alt_lines)%nat with false; [reflexivity|].
      symmetry. apply Nat.leb_gt. apply orb_prop in E as [E|E].
      * destruct alt_lines; [simpl; lia|discriminate].
      * apply negb_true_iff in E. lia.
    + apply orb_false_elim in E as [_ E]. apply negb_false_iff in E.
      rewrite IH, length_drop.
      destruct (list_sum (map line_count ls)
                <=? length alt_lines - line_count l)%nat eqn:E1.
      * apply Nat.leb_le in E1.
        replace (line_count l + list_sum (map line_count ls)
                 <=? length alt_lines)%nat with true
          by (symmetry; apply Nat.leb_le; lia).
        now rewrite <- app_assoc.
      * apply Nat.leb_gt in E1.
        replace (line_count l + list_sum (map line_count ls)
                 <=? length alt_lines)%nat with false
          by (symmetry; apply Nat.leb_gt; lia).
        reflexivity.
Qed.

(** One ability never fails to parse. *)
Lemma pw_ability_ok (line en_line : str) :
  exists ability, pw_ability line en_line = Ok ability.
Proof.
  unfold pw_ability.
  destruct ((5 >? find (u ": ") en_line) && (find (u ": ") en_line >? 0)) eqn:E.
  - apply andb_prop in E as [_ E].
    assert (Hne : en_line <> []) by (apply (find_positive_nonempty (u ": ")); lia).
    destruct en_line as [|c en_line]; [congruence|]. simpl. eauto.
  - eauto.
Qed.

Lemma pw_abilities_loop_ok (en_lines ls : list str) (i : nat)
    (acc : list PwAbility) :
  (i + length ls <= length en_lines)%nat ->
  exists abilities,
    pw_abilities_loop i ls en_lines acc = Ok (acc ++ abilities)
    /\ length abilities = length ls
    /\ forall j line en_line ability,
         ls !! j = Some line -> en_lines !! (i + j)%nat = Some en_line ->
         abilities !! j = Some ability ->
         pw_ability line en_line = Ok ability.
Proof.
  revert i acc. induction ls as [|l ls IH]; intros i acc Hlen; simpl in *.
  - exists []. rewrite app_nil_r. repeat split. intros j ? ? ? Hj. discriminate.
  - destruct (lookup_lt_is_Some_2 en_lines i ltac:(lia)) as [en Hen].
    unfold index at 1. rewrite Hen. simpl.
    destruct (pw_ability_ok l en) as [a Ha]. rewrite Ha. simpl.
    destruct (IH (S i) (acc ++ [a]) ltac:(lia)) as (abl & E & Hl & Hall).
    exists (a :: abl). rewrite E, <- app_assoc. simpl.
    repeat split; [now rewrite Hl|].
    intros [|j] line en_line ability Hj Hej Haj; simpl in *.
    + replace (i + 0)%nat with i in Hej by lia. congruence.
    + apply (Hall j); [exact Hj| |exact Haj].
      rewrite <- Hej. f_equal. lia.
Qed.

(** The lines the source parses the abilities from are [displayed_lines],
    one for each English paragraph. *)
Lemma pw_lines_displayed (self : Layout) :
  let en_lines := PLANESWALKER_findall (PlaneswalkerLayout_oracle_text_raw self) in
  (if NormalLayout_is_alt_lang self
      && bool_decide (is_Some (Face.printed_text (NormalLayout_card self)))
   then pw_alt_lines_loop en_lines en_lines
          (split NL (PlaneswalkerLayout_oracle_text self)) []
   else en_lines)
  = displayed_lines self
  /\ length (displayed_lines self) = length en_lines.
Proof.
  intros en_lines. unfold displayed_lines, PlaneswalkerLayout_oracle_text.
  fold en_lines.
  destruct (Face.printed_text (NormalLayout_card self)) as [printed|];
    [|rewrite andb_false_r; split; reflexivity].
  destruct (NormalLayout_is_alt_lang self); [|split; reflexivity].
  rewrite bool_decide_true by eauto. cbn [andb get default from_option].
  unfold id. rewrite pw_alt_lines_loop_repartition.
  destruct (list_sum (map line_count en_lines)
            <=? length (split NL (replace MINUS_SIGN (u "-") printed)))%nat;
    split; try reflexivity.
  apply repartition_length.
Qed.

(** C9, amended. The abilities of a Planeswalker are parsed from its
    displayed paragraphs ([displayed_lines]) and the English paragraphs, one
    for one. With [position] the position of ": " in the English paragraph:
    when 1 <= position <= 4 the ability is activated, its icon is the first
    character of the English paragraph, its cost the prefix of the English
    paragraph before the separator, and its text the displayed paragraph
    from the character after [position] on, leading whitespace stripped; for
    an English paragraph displayed as it is, that is the remainder after
    ": ". For any other position (no separator, 0, or more than 4) the
    ability is static: the whole displayed paragraph, no icon, no cost. *)
Theorem pw_abilities_activated_iff_position_1_to_4 (self : Layout) :
  let en_lines := PLANESWALKER_findall (PlaneswalkerLayout_oracle_text_raw self) in
  let displayed := displayed_lines self in
  exists abilities,
    PlaneswalkerLayout_pw_abilities self = Ok abilities
    /\ length displayed = length en_lines
    /\ length abilities = length en_lines
    /\ forall i line en_line ability,
         displayed !! i = Some line -> en_lines !! i = Some en_line ->
         abilities !! i = Some ability ->
         let position := find (u ": ") en_line in
         (1 <= position <= 4 ->
            exists icon rest,
              en_line = slice_to en_line position ++ u ": " ++ rest
              /\ head en_line = Some icon
              /\ ability = mkPwAbility (lstrip (slice_from line (position + 1)))
                             (Some icon) (Some (slice_to en_line position))
              /\ (line = en_line -> pw_text ability = lstrip rest))
         /\ (~ 1 <= position <= 4 -> ability = mkPwAbility line None None).
Proof.
  intros en_lines displayed. unfold PlaneswalkerLayout_pw_abilities.
  fold en_lines.
  destruct (pw_lines_displayed self) as [Hd Hlen].
  fold en_lines in Hd, Hlen. rewrite Hd. fold displayed in Hlen |- *.
  destruct (pw_abilities_loop_ok en_lines displayed 0 [] ltac:(lia))
    as (abilities & E & Hl & Hall).
  exists abilities. simpl in E.
  split; [exact E|]. split; [exact Hlen|]. split; [lia|].
  intros i line en_line ability Hdi He Ha.
  set (position := find (u ": ") en_line). split.
  - intros Hpos. specialize (Hall i line en_line ability Hdi He Ha).
    unfold pw_ability in Hall. fold position in Hall.
    replace ((5 >? position) && (position >? 0)) with true in Hall
      by (symmetry; apply andb_true_intro; split; lia).
    destruct (find_split (u ": ") en_line ltac:(fold position; lia)) as [Hcut Hcl].
    fold position in Hcut, Hcl.
    assert (Hne : en_line <> [])
      by (apply (find_positive_nonempty (u ": ")); fold position; lia).
    destruct en_line as [|c en_line]; [congruence|].
    simpl in Hall. injection Hall as <-.
    exists c, (slice_from (c :: en_line) (position + Z.of_nat (length (u ": ")))).
    repeat split; [exact Hcut|].
    intros ->. simpl pw_text.
    set (pre := slice_to (c :: en_line) position) in *.
    set (rest := slice_from (c :: en_line) (position + Z.of_nat (length (u ": ")))) in *.
    rewrite Hcut at 1. unfold slice_from.
    replace (Z.to_nat (position + 1)) with (length pre + 1)%nat by lia.
    rewrite drop_app_add'; [|reflexivity]. reflexivity.
  - intros Hpos. specialize (Hall i line en_line ability Hdi He Ha).
    unfold pw_ability in Hall. fold position in Hall.
    replace ((5 >? position) && (position >? 0)) with false in Hall.
    + now injection Hall as <-.
    + symmetry. apply andb_false_iff. lia.
Qed.

(** *** The face a layout reads from *)

(** [card_scan] returns the first face whose normalized name is the
    normalized input name. *)
Lemma card_scan_first (faces : list Face.t) (input_name : str) :
  match card_scan faces input_name with
  | Some face =>
      exists before after,
        faces = before ++ face :: after
        /\ Forall (fun f => normalize_str (Face.name f) <> normalize_str input_name)
                  before
        /\ normalize_str (Face.name face) = normalize_str input_name
  | None =>
      Forall (fun f => normalize_str (Face.name f) <> normalize_str input_name)
             faces
  end.
Proof.
  induction faces as [|f faces IH]; simpl; [constructor|].
  unfold str_eq. case_bool_decide as E.
  - exists [], faces. repeat split; [constructor|exact E].
  - destruct (card_scan faces input_name) as [face|].
    + destruct IH as (before & after & -> & Hb & Hm).
      exists (f :: before), after. repeat split; [|exact Hm].
      constructor; assumption.
    + constructor; assumption.
Qed.

(** C10, amended. For every layout class other than [SplitLayout]: the
    single-face fields (name, mana cost, oracle text, type line, frame
    input, raw watermark key) are read from the first face of [card_faces]
    whose normalized name equals the normalized name given in the art file
    name; if no face matches, or the record has no [card_faces], they are
    read from the record itself. *)
Theorem card_is_first_matching_face (self : Layout) :
  cls self <> Cls.SplitLayout ->
  let matches (f : Face.t) :=
    normalize_str (Face.name f) = normalize_str (NormalLayout_input_name self) in
  exists selected,
    card self = Ok selected
    /\ match Scryfall.card_faces (scryfall self) with
       | None => selected = Scryfall.top (scryfall self)
       | Some faces =>
           (exists before after,
              faces = before ++ selected :: after
              /\ Forall (fun f => ~ matches f) before /\ matches selected)
           \/ (Forall (fun f => ~ matches f) faces
               /\ selected = Scryfall.top (scryfall self))
       end
    /\ frame self = Ok (get_frame_details selected)
    /\ NormalLayout_name_raw self = Face.name selected
    /\ NormalLayout_name self
       = (if NormalLayout_is_alt_lang self
          then get (Face.printed_name selected) (Face.name selected)
          else Face.name selected)
    /\ NormalLayout_mana_cost self = get (Face.mana_cost selected) []
    /\ NormalLayout_oracle_text_raw self = get (Face.oracle_text selected) []
    /\ NormalLayout_oracle_text self
       = (if NormalLayout_is_alt_lang self
          then get (Face.printed_text selected) (get (Face.oracle_text selected) [])
          else get (Face.oracle_text selected) [])
    /\ NormalLayout_type_line_raw self = get (Face.type_line selected) []
    /\ NormalLayout_watermark_raw self = Face.watermark selected.
Proof.
  intros Hcls matches. exists (NormalLayout_card self).
  assert (Hcard : card self = Ok (NormalLayout_card self)).
  { unfold card. destruct (cls self); try reflexivity. congruence. }
  split; [exact Hcard|]. split.
  - unfold NormalLayout_card.
    destruct (Scryfall.card_faces (scryfall self)) as [faces|]; simpl;
      [|reflexivity].
    pose proof (card_scan_first faces (NormalLayout_input_name self)) as Hs.
    destruct (card_scan faces (NormalLayout_input_name self)) as [face|].
    + left. exact Hs.
    + right. split; [exact Hs|reflexivity].
  - unfold frame. rewrite Hcard. repeat split.
Qed.

(** *** Saga chapters *)

Lemma in_chapter_class_In (c : char) :
  in_chapter_class c = true <-> In c (u " ,IVXLCDM").
Proof.
  unfold in_chapter_class, N_in. rewrite existsb_exists. split.
  - intros (x & Hx & E). apply N.eqb_eq in E. now subst.
  - intros Hc. exists c. split; [exact Hc|apply N.eqb_refl].
Qed.

Lemma chapter_regex_tail_spec (s : str) :
  chapter_regex_tail s = true
  <-> exists numerals rest,
        Forall (fun c => In c (u " ,IVXLCDM")) numerals
        /\ s = numerals ++ u " — " ++ rest.
Proof.
  split.
  - induction s as [|c s IH]; simpl.
    + discriminate.
    + intros Hm. apply orb_prop in Hm as [Hm|Hm].
      * exists [], (drop (length (u " — ")) (c :: s)). split; [constructor|].
        apply (startswith_app (u " — ") (c :: s)). exact Hm.
      * apply andb_prop in Hm as [Hc Hm].
        destruct (IH Hm) as (numerals & rest & Hn & ->).
        exists (c :: numerals), rest. split; [|reflexivity].
        constructor; [now apply in_chapter_class_In|exact Hn].
  - intros (numerals & rest & Hn & ->).
    induction Hn as [|c numerals Hc Hn IH].
    + reflexivity.
    + change ((c :: numerals) ++ u " — " ++ rest)
        with (c :: (numerals ++ u " — " ++ rest)).
      cbn [chapter_regex_tail]. rewrite IH.
      apply in_chapter_class_In in Hc. rewrite Hc.
      apply orb_true_r.
Qed.

(** The pattern, read as a set of lines. *)
Lemma chapter_regex_spec (line : str) :
  SagaLayout_chapter_regex line = true <-> ChapterLine line.
Proof.
  unfold ChapterLine. split.
  - destruct line as [|c line]; simpl; [discriminate|].
    intros Hm. apply andb_prop in Hm as [Hc Hm].
    apply chapter_regex_tail_spec in Hm as (numerals & rest & Hn & ->).
    exists (c :: numerals), rest. repeat split; [discriminate|].
    constructor; [now apply in_chapter_class_In|exact Hn].
  - intros (numerals & rest & Hne & Hn & ->).
    destruct Hn as [|c numerals Hc Hn]; [congruence|].
    change ((c :: numerals) ++ u " — " ++ rest)
      with (c :: (numerals ++ u " — " ++ rest)).
    cbn [SagaLayout_chapter_regex].
    apply in_chapter_class_In in Hc. rewrite Hc. simpl.
    apply chapter_regex_tail_spec. eauto.
Qed.

(** [find] of a single character: the string is cut at its first
    occurrence. *)
Lemma find_char_from (c : char) (s : str) (k : Z) :
  0 <= k -> In c s ->
  exists before after,
    s = before ++ [c] ++ after /\ ~ In c before
    /\ find_from [c] s k = k + Z.of_nat (length before).
Proof.
  revert k. induction s as [|d s IH]; intros k Hk Hin; [destruct Hin|].
  assert (Hstep : find_from [c] (d :: s) k
                  = if (c =? d)%N then k else find_from [c] s (k + 1)).
  { cbn [find_from startswith]. now destruct (c =? d)%N. }
  rewrite Hstep. destruct (c =? d)%N eqn:E.
  - apply N.eqb_eq in E. subst d. exists [], s.
    split; [reflexivity|]. split; [intros []|simpl; lia].
  - apply N.eqb_neq in E. destruct Hin as [Hin|Hin]; [congruence|].
    destruct (IH (k + 1) ltac:(lia) Hin) as (before & after & Hs & Hb & Hf).
    exists (d :: before), after. rewrite Hf.
    split; [simpl; now f_equal|]. split; [|simpl; lia].
    intros [Hd|Hd]; [congruence|tauto].
Qed.

Lemma saga_entry_of_line (line : str) :
  In 8212%N line ->
  exists entry,
    ChapterEntry line entry
    /\ forall i rest abilities,
         saga_lines_loop i (line :: rest) abilities
         = saga_lines_loop (S i) rest (abilities ++ [entry]).
Proof.
  intros Hin.
  destruct (find_char_from 8212%N line 0 ltac:(lia) Hin)
    as (before & after & -> & Hb & Hf).
  exists (mkSagaLine (strip after) (split (u ", ") (strip before))).
  split; [exists before, after; repeat split; exact Hb|].
  intros i rest abilities. cbn [saga_lines_loop].
  unfold contains, split1, find. change EM_DASH with [8212%N]. rewrite Hf.
  replace (0 <=? 0 + Z.of_nat (length before)) with true by (symmetry; lia).
  replace (0 + Z.of_nat (length before) <? 0) with false by (symmetry; lia).
  unfold slice_to, slice_from. cbn [unpack2 bind length].
  replace (Z.to_nat (0 + Z.of_nat (length before))) with (length before) by lia.
  replace (Z.to_nat (0 + Z.of_nat (length before) + Z.of_nat 1))
    with (length before + 1)%nat by lia.
  rewrite take_app_length.
  rewrite drop_app_add'; [|reflexivity]. reflexivity.
Qed.

Lemma chapter_line_has_dash (line : str) :
  SagaLayout_chapter_regex line = true -> In 8212%N line.
Proof.
  intros Hm. apply chapter_regex_spec in Hm as (numerals & rest & _ & _ & ->).
  apply in_or_app. right. right. left. reflexivity.
Qed.

Lemma saga_lines_loop_chapters (ls : list str) (i : nat) (abilities : list SagaLine) :
  Forall (fun l => SagaLayout_chapter_regex l = true) ls ->
  exists entries,
    saga_lines_loop i ls abilities = Ok (abilities ++ entries)
    /\ Forall2 ChapterEntry ls entries.
Proof.
  intros Hall. revert i abilities.
  induction Hall as [|l ls Hl Hall IH]; intros i abilities.
  - exists []. rewrite app_nil_r. split; [reflexivity|constructor].
  - destruct (saga_entry_of_line l (chapter_line_has_dash l Hl)) as (e & He & Hstep).
    rewrite Hstep.
    destruct (IH (S i) (abilities ++ [e])) as (entries & E & Hes).
    exists (e :: entries). rewrite E, <- app_assoc.
    split; [reflexivity|constructor; assumption].
Qed.

(** Lines of [splitlines] hold no newline, so joining them with newlines
    and splitting at newlines gives them back. *)
Lemma is_linebreak_nl (c : char) : is_linebreak c = false -> c <> 10%N.
Proof. intros E ->. vm_compute in E. discriminate. Qed.

Lemma splitlines_no_nl (s : str) :
  Forall (fun l => ~ In 10%N l) (splitlines s).
Proof.
  assert (Hn : forall n s, (length s <= n)%nat ->
             Forall (fun l => ~ In 10%N l) (splitlines s)).
  { clear s. induction n as [|n IH]; intros [|c s] Hlen; simpl in Hlen;
      try (constructor; fail); try lia.
    cbn [splitlines]. destruct (is_linebreak c) eqn:E.
    - constructor; [tauto|].
      destruct s as [|d s]; [constructor|].
      destruct ((c =? 13)%N && (d =? 10)%N).
      + apply IH. simpl in Hlen. lia.
      + apply IH. lia.
    - pose proof (IH s ltac:(lia)) as Hs.
      apply is_linebreak_nl in E.
      destruct (splitlines s) as [|l ls].
      + constructor; [|constructor]. intros [Hc|[]]. congruence.
      + inversion Hs; subst. constructor; [|assumption].
        intros [Hc|Hc]; [congruence|tauto]. }
  apply (Hn (length s)). lia.
Qed.

Lemma split_line_end (l : str) :
  ~ In 10%N l -> split NL l = [l].
Proof.
  unfold split. induction l as [|c l IH]; intros Hnl; [reflexivity|].
  cbn [split_go NL startswith].
  destruct (10 =? c)%N eqn:E;
    [apply N.eqb_eq in E; exfalso; apply Hnl; left; congruence|].
  cbn [andb]. rewrite IH; [reflexivity|]. intros Hc. apply Hnl. now right.
Qed.

Lemma split_line_cons (l s : str) :
  ~ In 10%N l -> split NL (l ++ NL ++ s) = l :: split NL s.
Proof.
  unfold split. induction l as [|c l IH]; intros Hnl.
  - reflexivity.
  - change ((c :: l) ++ NL ++ s) with (c :: (l ++ NL ++ s)).
    cbn [split_go NL startswith].
    destruct (10 =? c)%N eqn:E;
      [apply N.eqb_eq in E; exfalso; apply Hnl; left; congruence|].
    cbn [andb]. rewrite IH; [reflexivity|]. intros Hc. apply Hnl. now right.
Qed.

Lemma split_join_lines (ls : list str) :
  ls <> [] -> Forall (fun l => ~ In 10%N l) ls -> split NL (join NL ls) = ls.
Proof.
  intros Hne Hall. induction Hall as [|l ls Hl Hall IH]; [congruence|].
  destruct ls as [|l' ls].
  - simpl. now apply split_line_end.
  - change (join NL (l :: l' :: ls)) with (l ++ NL ++ join NL (l' :: ls)).
    rewrite split_line_cons by exact Hl. f_equal. apply IH. discriminate.
Qed.

Lemma Forall_filter_bool {A} (P : A -> Prop) (f : A -> bool) (l : list A) :
  Forall P l -> Forall P (List.filter f l).
Proof.
  induction 1 as [|x l Hx Hl IH]; simpl; [constructor|].
  destruct (f x); [constructor|]; assumption.
Qed.

Lemma Forall_filter_true {A} (f : A -> bool) (l : list A) :
  Forall (fun x => f x = true) (List.filter f l).
Proof.
  induction l as [|x l IH]; simpl; [constructor|].
  destruct (f x) eqn:E; [constructor|]; assumption.
Qed.

(** C7. With reminder removal off, [saga_description] is the first line of
    the oracle text when that line is not a chapter line and is empty when
    it is one; [saga_lines] has one entry per chapter line, in order, each
    made by cutting the line at its first em dash into the comma-separated
    icons before it and the text after it (a text without any chapter line
    gives one empty entry). On the Saga "Read ahead." /
    "I — Draw a card." / "II — Deal 2 damage." / "III — Gain 3 life." the
    description is "Read ahead." and the three chapters have the icons
    ["I"], ["II"] and ["III"]. *)
Theorem saga_description_and_lines (self : Layout) :
  Config.remove_reminder CFG = false ->
  let text := NormalLayout_oracle_text self in
  let first := hd [] (split NL text) in
  let chapters := List.filter SagaLayout_chapter_regex (splitlines text) in
  (ChapterLine first -> SagaLayout_saga_description self = [])
  /\ (~ ChapterLine first -> SagaLayout_saga_description self = first)
  /\ Forall ChapterLine chapters
  /\ (chapters <> [] ->
      exists entries,
        SagaLayout_saga_lines self = Ok entries
        /\ Forall2 ChapterEntry chapters entries)
  /\ (chapters = [] -> SagaLayout_saga_lines self = Ok [mkSagaLine [] []])
  /\ SagaLayout_saga_description Samples.saga_read_ahead = u "Read ahead."
  /\ SagaLayout_saga_lines Samples.saga_read_ahead
     = Ok [mkSagaLine (u "Draw a card.") [u "I"];
           mkSagaLine (u "Deal 2 damage.") [u "II"];
           mkSagaLine (u "Gain 3 life.") [u "III"]].
Proof.
  intros Hrr text first chapters.
  assert (Hdesc : SagaLayout_saga_description self
                  = if SagaLayout_chapter_regex first then [] else first).
  { unfold SagaLayout_saga_description. rewrite Hrr. reflexivity. }
  split; [|split; [|split; [|split; [|split; [|split]]]]].
  - intros Hc. apply chapter_regex_spec in Hc. now rewrite Hdesc, Hc.
  - intros Hc. rewrite Hdesc.
    destruct (SagaLayout_chapter_regex first) eqn:E; [|reflexivity].
    exfalso. apply Hc, chapter_regex_spec, E.
  - eapply Forall_impl; [apply Forall_filter_true|].
    intros l Hl. now apply chapter_regex_spec.
  - intros Hne. unfold SagaLayout_saga_lines, SagaLayout_saga_text.
    fold text. fold chapters.
    rewrite split_join_lines;
      [|exact Hne|apply Forall_filter_bool, splitlines_no_nl].
    destruct (saga_lines_loop_chapters chapters 0 [] (Forall_filter_true _ _))
      as (entries & E & Hes).
    exists entries. split; assumption.
  - intros Hnone. unfold SagaLayout_saga_lines, SagaLayout_saga_text.
    fold text. fold chapters. rewrite Hnone. reflexivity.
  - unfold SagaLayout_saga_description. rewrite Hrr. vm_compute. reflexivity.
  - vm_compute. reflexivity.
Qed.

(** *** Joining dual layouts *)

Lemma keys_differ_sym (x y : obj) : keys_differ x y -> keys_differ y x.
Proof.
  intros (s1 & s2 & H1 & H2 & Hne). exists s2, s1. repeat split; congruence.
Qed.

Lemma in_skip_In (card : obj) (skip : list nat) :
  in_skip card skip = true <-> In card.1 skip.
Proof.
  unfold in_skip. rewrite existsb_exists. split.
  - intros (r & Hr & E). apply Nat.eqb_eq in E. now subst.
  - intros Hr. exists card.1. split; [exact Hr|apply Nat.eqb_refl].
Qed.

Lemma split_of_app (l1 l2 : list item) :
  split_of (l1 ++ l2) = split_of l1 ++ split_of l2.
Proof.
  induction l1 as [|[s|r o] l1 IH]; simpl; [reflexivity|exact IH|].
  destruct (LayoutType.eqb (card_class o) LayoutType.Split); simpl;
    now rewrite IH.
Qed.

Lemma split_of_split (layouts : list item) (x : obj) :
  In x (split_of layouts) -> is_split (item_of x) = true.
Proof.
  induction layouts as [|[s|r o] l IH]; simpl; [tauto|exact IH|].
  destruct (LayoutType.eqb (card_class o) LayoutType.Split) eqn:E; [|exact IH].
  intros [<-|Hx]; [exact E|now apply IH].
Qed.

Lemma split_of_In (layouts : list item) (x : obj) :
  In x (split_of layouts) -> In (item_of x) layouts.
Proof.
  induction layouts as [|[s|r o] l IH]; simpl; [tauto|now right; apply IH|].
  destruct (LayoutType.eqb (card_class o) LayoutType.Split).
  - intros [<-|Hx]; [now left|right; now apply IH].
  - intros Hx. right. now apply IH.
Qed.

Lemma split_of_normal (layouts : list item) : split_of (normal_of layouts) = [].
Proof.
  induction layouts as [|[s|r o] l IH]; simpl; [reflexivity|exact IH|].
  destruct (LayoutType.eqb (card_class o) LayoutType.Split) eqn:E; simpl;
    [exact IH|now rewrite E].
Qed.

Lemma normal_of_normal (layouts : list item) :
  normal_of (normal_of layouts) = normal_of layouts.
Proof.
  unfold normal_of. induction layouts as [|n l IH]; simpl; [reflexivity|].
  destruct (negb (is_split n)) eqn:E; simpl; [rewrite E, IH|]; auto.
Qed.

Lemma normal_of_app (l1 l2 : list item) :
  normal_of (l1 ++ l2) = normal_of l1 ++ normal_of l2.
Proof.
  unfold normal_of. induction l1 as [|n l1 IH]; simpl; [reflexivity|].
  destruct (negb (is_split n)); simpl; now rewrite IH.
Qed.

Lemma split_of_items (add : list obj) :
  Forall (fun x => is_split (item_of x) = true) add ->
  split_of (map item_of add) = add /\ normal_of (map item_of add) = [].
Proof.
  unfold normal_of.
  induction 1 as [|[r o] add Hx _ [IH1 IH2]]; simpl; [split; reflexivity|].
  simpl in Hx. rewrite Hx. simpl. now rewrite IH1, IH2.
Qed.

(** What a completed run of the inner loop did: [skip] only grew, by
    [card] and by instances that share its display string; only [card] was
    assigned to; and every other instance of the list was compared. *)
Lemma join_inner_ok (card : obj) (cs : list obj) (σ σ' : store)
    (skip skip' : list nat) :
  join_inner card cs σ skip = Ok (σ', skip') ->
  (forall r, In r skip -> In r skip')
  /\ (forall r, r <> card.1 -> σ' !! r = σ !! r)
  /\ (forall r, In r skip' ->
        In r skip
        \/ exists c s, In c cs /\ c.1 <> card.1 /\ (r = card.1 \/ r = c.1)
                       /\ SplitLayout_str c.2 = Ok s
                       /\ SplitLayout_str card.2 = Ok s)
  /\ (forall c, In c cs -> c.1 <> card.1 ->
        exists s1 s2,
          SplitLayout_str c.2 = Ok s1 /\ SplitLayout_str card.2 = Ok s2
          /\ (s1 = s2 -> In c.1 skip')).
Proof.
  revert σ skip. induction cs as [|c cs IH]; intros σ skip Hrun.
  - simpl in Hrun. injection Hrun as <- <-.
    repeat split; auto. intros c [].
  - cbn [join_inner] in Hrun. unfold same in Hrun.
    destruct (Nat.eqb c.1 card.1) eqn:Esame.
    + apply Nat.eqb_eq in Esame.
      destruct (IH _ _ Hrun) as (Hs & Hst & Hsk & Hcmp).
      repeat split; auto.
      * intros r Hr. destruct (Hsk r Hr) as [Hin|(c0 & s & Hc0 & Hrest)];
          [now left|right]. exists c0, s. split; [now right|exact Hrest].
      * intros c0 [<-|Hc0] Hne; [congruence|now apply Hcmp].
    + apply Nat.eqb_neq in Esame.
      destruct (SplitLayout_str c.2) as [str_c|] eqn:Ec; [|discriminate].
      destruct (SplitLayout_str card.2) as [str_card|] eqn:Ecard; [|discriminate].
      cbn [bind] in Hrun. unfold str_eq in Hrun.
      case_bool_decide as Eeq.
      * destruct (joined_art_file σ card c) as [v|] eqn:Ev; [|discriminate].
        cbn [bind] in Hrun.
        destruct (IH _ _ Hrun) as (Hs & Hst & Hsk & Hcmp).
        repeat split.
        -- intros r Hr. apply Hs, in_or_app. now left.
        -- intros r Hr. rewrite (Hst r Hr). now apply lookup_insert_ne.
        -- intros r Hr. destruct (Hsk r Hr) as [Hin|(c0 & s & Hc0 & Hrest)].
           ++ apply in_app_or in Hin as [Hin|Hin]; [now left|right].
              exists c, str_c. subst str_card.
              split; [now left|]. split; [exact Esame|].
              split; [|split; [exact Ec|reflexivity]].
              destruct Hin as [<-|[<-|[]]]; auto.
           ++ right. exists c0, s. split; [now right|exact Hrest].
        -- intros c0 [<-|Hc0] Hne; [|now apply Hcmp].
           exists str_c, str_card. repeat split; auto.
           intros _. apply Hs, in_or_app. right. right. now left.
      * destruct (IH _ _ Hrun) as (Hs & Hst & Hsk & Hcmp).
        repeat split; auto.
        -- intros r Hr. destruct (Hsk r Hr) as [Hin|(c0 & s & Hc0 & Hrest)];
             [now left|right]. exists c0, s. split; [now right|exact Hrest].
        -- intros c0 [<-|Hc0] Hne; [|now apply Hcmp].
           exists str_c, str_card. repeat split; auto. intros E. congruence.
Qed.

(** When no other instance of the list shares the display string of
    [card], the inner loop changes nothing. *)
Lemma join_inner_no_match (card : obj) (cs : list obj) (σ : store)
    (skip : list nat) :
  (forall c, In c cs -> c.1 <> card.1 -> keys_differ c card) ->
  join_inner card cs σ skip = Ok (σ, skip).
Proof.
  induction cs as [|c cs IH]; intros Hd; [reflexivity|].
  cbn [join_inner]. unfold same.
  destruct (Nat.eqb c.1 card.1) eqn:Esame.
  - apply IH. intros c0 Hc0. apply Hd. now right.
  - apply Nat.eqb_neq in Esame.
    destruct (Hd c (or_introl eq_refl) Esame) as (s1 & s2 & E1 & E2 & Hne).
    rewrite E1, E2. cbn [bind]. unfold str_eq.
    case_bool_decide; [congruence|].
    apply IH. intros c0 Hc0. apply Hd. now right.
Qed.

(** The outer loop only appends to [add]. *)
Lemma join_outer_extends (S cards : list obj) (σ σ' : store) (skip : list nat)
    (add add' : list obj) :
  join_outer S cards σ skip add = Ok (σ', add') ->
  exists extra, add' = add ++ extra /\ forall x, In x extra -> In x cards.
Proof.
  revert σ skip add. induction cards as [|card cards IH]; intros σ skip add Hrun.
  - simpl in Hrun. injection Hrun as <- <-. exists []. rewrite app_nil_r.
    split; [reflexivity|intros x []].
  - cbn [join_outer] in Hrun. destruct (in_skip card skip).
    + destruct (IH _ _ _ Hrun) as (extra & -> & Hin).
      exists extra. split; [reflexivity|]. intros x Hx. right. now apply Hin.
    + destruct (join_inner card S σ skip) as [[σ1 skip1]|]; [|discriminate].
      cbn [bind] in Hrun.
      destruct (IH _ _ _ Hrun) as (extra & -> & Hin).
      exists (card :: extra). rewrite <- app_assoc. split; [reflexivity|].
      intros x [<-|Hx]; [now left|right; now apply Hin].
Qed.

(** After a completed run of the outer loop, no two distinct instances of
    [add] share a display string. The invariant also records that every
    instance already in [add] was compared with all the others, those with
    its display string being in [skip]. *)
Lemma join_outer_distinct (S cards : list obj) (σ σ' : store)
    (skip : list nat) (add add' : list obj) :
  join_outer S cards σ skip add = Ok (σ', add') ->
  (forall x, In x cards -> In x S) ->
  (forall x, In x add -> In x S) ->
  (forall x c, In x add -> In c S -> c.1 <> x.1 ->
     exists s1 s2,
       SplitLayout_str c.2 = Ok s1 /\ SplitLayout_str x.2 = Ok s2
       /\ (s1 = s2 -> In c.1 skip)) ->
  distinct_keys add ->
  distinct_keys add' /\ (forall x, In x add' -> In x S).
Proof.
  revert σ skip add.
  induction cards as [|card cards IH]; intros σ skip add Hrun Hcards Hadd Hcmp Hd.
  - simpl in Hrun. injection Hrun as <- <-. split; assumption.
  - cbn [join_outer] in Hrun. destruct (in_skip card skip) eqn:Eskip.
    + apply (IH _ _ _ Hrun); auto. intros x Hx. apply Hcards. now right.
    + destruct (join_inner card S σ skip) as [[σ1 skip1]|] eqn:Einner;
        [|discriminate].
      cbn [bind] in Hrun.
      destruct (join_inner_ok _ _ _ _ _ _ Einner) as (Hs & _ & _ & Hcmp1).
      assert (Hnot : ~ In card.1 skip).
      { intros Hin. apply in_skip_In in Hin. congruence. }
      assert (HcardS : In card S) by (apply Hcards; now left).
      apply (IH _ _ _ Hrun).
      * intros x Hx. apply Hcards. now right.
      * intros x Hx. apply in_app_or in Hx as [Hx|[<-|[]]]; auto.
      * intros x c Hx Hc Hne. apply in_app_or in Hx as [Hx|[<-|[]]].
        -- destruct (Hcmp x c Hx Hc Hne) as (s1 & s2 & E1 & E2 & Hi).
           exists s1, s2. repeat split; auto.
        -- now apply Hcmp1.
      * intros x y Hx Hy Hne.
        apply in_app_or in Hx as [Hx|[<-|[]]];
          apply in_app_or in Hy as [Hy|[<-|[]]].
        -- now apply Hd.
        -- destruct (Hcmp x card Hx HcardS (not_eq_sym Hne))
             as (s1 & s2 & E1 & E2 & Hi).
           exists s2, s1. split; [exact E2|split; [exact E1|]].
           intros E. apply Hnot, Hi. congruence.
        -- destruct (Hcmp y card Hy HcardS Hne) as (s1 & s2 & E1 & E2 & Hi).
           exists s1, s2. split; [exact E1|split; [exact E2|]].
           intros E. apply Hnot, Hi, E.
        -- congruence.
Qed.

(** On a list without two distinct instances sharing a display string, the
    outer loop adds every instance and assigns nothing. *)
Lemma join_outer_noop (A cards : list obj) (σ : store) (acc : list obj) :
  (forall x c, In x cards -> In c A -> c.1 <> x.1 -> keys_differ c x) ->
  join_outer A cards σ [] acc = Ok (σ, acc ++ cards).
Proof.
  revert acc. induction cards as [|card cards IH]; intros acc Hd.
  - simpl. now rewrite app_nil_r.
  - cbn [join_outer]. change (in_skip card []) with false. cbv iota.
    rewrite join_inner_no_match.
    + cbn [bind]. rewrite IH.
      * now rewrite <- app_assoc.
      * intros x c Hx. apply Hd. now right.
    + intros c Hc Hne. apply (Hd card c); auto. now left.
Qed.

(** An instance that is alone with its display string is never skipped and
    never assigned to, and is added to the result. *)
Lemma join_outer_lone (layouts : list item) (cards : list obj) (σ σ' : store)
    (skip : list nat) (add add' : list obj) (r : nat) :
  join_outer (split_of layouts) cards σ skip add = Ok (σ', add') ->
  (forall x, In x cards -> In x (split_of layouts)) ->
  lone layouts r -> ~ In r skip ->
  σ' !! r = σ !! r /\ forall x, In x cards -> x.1 = r -> In x add'.
Proof.
  revert σ skip add.
  induction cards as [|card cards IH]; intros σ skip add Hrun Hcards Hlone Hr.
  - simpl in Hrun. injection Hrun as <- <-. split; [reflexivity|intros x []].
  - assert (HcardS : In card (split_of layouts)) by (apply Hcards; now left).
    assert (Hrest : forall x, In x cards -> In x (split_of layouts))
      by (intros x Hx; apply Hcards; now right).
    cbn [join_outer] in Hrun. destruct (in_skip card skip) eqn:Eskip.
    + destruct (IH _ _ _ Hrun Hrest Hlone Hr) as [Hst Hin].
      split; [exact Hst|]. intros x [<-|Hx] Hx1; [|now apply Hin].
      apply in_skip_In in Eskip. congruence.
    + destruct (join_inner card (split_of layouts) σ skip)
        as [[σ1 skip1]|] eqn:Einner; [|discriminate].
      cbn [bind] in Hrun.
      destruct (Nat.eq_dec card.1 r) as [Ecard|Ecard].
      * rewrite join_inner_no_match in Einner.
        2:{ intros c Hc Hne. apply (Hlone card c); auto. congruence. }
        injection Einner as <- <-.
        destruct (IH _ _ _ Hrun Hrest Hlone Hr) as [Hst Hin].
        split; [exact Hst|]. intros x [<-|Hx] Hx1; [|now apply Hin].
        destruct (join_outer_extends _ _ _ _ _ _ _ Hrun) as (extra & -> & _).
        apply in_or_app. left. apply in_or_app. right. now left.
      * destruct (join_inner_ok _ _ _ _ _ _ Einner) as (_ & Hst1 & Hsk & _).
        assert (Hr1 : ~ In r skip1).
        { intros Hin. destruct (Hsk r Hin) as [Hold|(c & s & Hc & Hne & Hrc & E1 & E2)];
            [tauto|].
          destruct Hrc as [-> | ->]; [congruence|].
          destruct (Hlone c card Hc HcardS eq_refl Ecard)
            as (s1 & s2 & F1 & F2 & Hdiff).
          congruence. }
        destruct (IH _ _ _ Hrun Hrest Hlone Hr1) as [Hst Hin].
        split; [rewrite Hst; apply Hst1; congruence|].
        intros x [<-|Hx] Hx1; [congruence|now apply Hin].
Qed.

(** The shape of a returned list: the non-Split entries of the batch, then
    the instances the outer loop added, no two of which share a display
    string. *)
Lemma join_dual_ok (σ σ' : store) (layouts out : list item) :
  join_dual_card_layouts σ layouts = Ok (σ', out) ->
  exists add,
    out = normal_of layouts ++ map item_of add
    /\ join_outer (split_of layouts) (split_of layouts) σ [] [] = Ok (σ', add)
    /\ distinct_keys add
    /\ (forall x, In x add -> In x (split_of layouts))
    /\ split_of out = add
    /\ normal_of out = normal_of layouts.
Proof.
  intros Hrun. unfold join_dual_card_layouts in Hrun.
  destruct (split_of layouts) as [|x0 S0] eqn:ES.
  - injection Hrun as <- <-. exists []. simpl. rewrite app_nil_r.
    split; [reflexivity|]. split; [reflexivity|]. split; [intros x y []|].
    split; [intros x []|]. split; [apply split_of_normal|apply normal_of_normal].
  - destruct (join_outer (x0 :: S0) (x0 :: S0) σ [] []) as [[σ1 add]|] eqn:Eouter;
      [|discriminate].
    cbn [bind] in Hrun. injection Hrun as <- <-.
    rewrite <- ES in Eouter.
    destruct (join_outer_distinct _ _ _ _ _ _ _ Eouter) as [Hd Hin]; auto.
    { intros x []. } { intros x c []. } { intros x y []. }
    assert (Hsplit : Forall (fun x => is_split (item_of x) = true) add).
    { apply Forall_forall. intros x Hx. apply list_elem_of_In in Hx.
      eapply split_of_split, Hin, Hx. }
    destruct (split_of_items add Hsplit) as [Hso Hno].
    exists add. rewrite <- ES.
    split; [reflexivity|]. split; [reflexivity|]. split; [exact Hd|].
    split; [exact Hin|]. split.
    + now rewrite split_of_app, split_of_normal, Hso.
    + now rewrite normal_of_app, Hno, normal_of_normal, app_nil_r.
Qed.

(** C2. The merge is idempotent: whenever [join_dual_card_layouts] returns
    a list, running it again on that list, from the store it left, returns
    the same list and leaves the store as it is. A Split instance that shares
    its display string with no other instance of the batch is in the result
    and its [art_file] is not assigned to; and a batch made of one Split
    instance alone (merged before or not) is returned as it is. *)
Theorem join_dual_card_layouts_idempotent (σ σ' : store)
    (layouts out : list item) :
  join_dual_card_layouts σ layouts = Ok (σ', out) ->
  join_dual_card_layouts σ' out = Ok (σ', out)
  /\ normal_of out = normal_of layouts
  /\ (forall r, lone layouts r ->
        σ' !! r = σ !! r
        /\ forall x, In x (split_of layouts) -> x.1 = r -> In (item_of x) out)
  /\ (forall (τ : store) r o,
        card_class o = LayoutType.Split ->
        join_dual_card_layouts τ [IObj r o] = Ok (τ, [IObj r o])).
Proof.
  intros Hrun.
  destruct (join_dual_ok _ _ _ _ Hrun) as (add & Hout & Eouter & Hd & Hin & Hso & Hnorm).
  split; [|split; [exact Hnorm|split]].
  - unfold join_dual_card_layouts. rewrite Hnorm, Hso.
    destruct add as [|a add].
    + rewrite Hout. simpl. now rewrite app_nil_r.
    + rewrite join_outer_noop.
      * cbn [bind app]. now rewrite Hout.
      * intros x c Hx Hc Hne. now apply Hd.
  - intros r Hlone.
    destruct (join_outer_lone layouts _ _ _ _ _ _ r Eouter (fun x Hx => Hx) Hlone)
      as [Hst Hadd]; [intros []|].
    split; [exact Hst|]. intros x Hx Hx1. rewrite Hout.
    apply in_or_app. right. apply (in_map item_of). now apply Hadd.
  - intros τ r o Hc. unfold join_dual_card_layouts, normal_of.
    cbn [split_of List.filter is_split]. rewrite Hc.
    cbn [LayoutType.eqb negb join_outer in_skip existsb join_inner].
    unfold same. cbn [fst]. rewrite Nat.eqb_refl. reflexivity.
Qed.

(** C3, amended. The merge phase has no MergeAmbiguity outcome: whatever
    the batch, [join_dual_card_layouts] does not raise one. A group of three
    or more Split instances sharing a display string goes through the same
    loop as a pair: whenever a list is returned, no two distinct Split
    instances of it share a display string, each of them is an instance of
    the batch, the first Split instance of the batch is among them, and the
    other entries are the batch's, unchanged. *)
Theorem join_has_no_merge_ambiguity (σ : store) (layouts : list item) :
  raised (join_dual_card_layouts σ layouts) <> Some "MergeAmbiguity"%string
  /\ forall σ' out,
       join_dual_card_layouts σ layouts = Ok (σ', out) ->
       distinct_keys (split_of out)
       /\ (forall x, In x (split_of out) -> In x (split_of layouts))
       /\ (forall x rest, split_of layouts = x :: rest -> In x (split_of out))
       /\ normal_of out = normal_of layouts.
Proof.
  split.
  - destruct (join_dual_card_layouts σ layouts) as [?|[]]; simpl; discriminate.
  - intros σ' out Hrun.
    destruct (join_dual_ok _ _ _ _ Hrun)
      as (add & Hout & Eouter & Hd & Hin & Hso & Hnorm).
    rewrite Hso. repeat split; [exact Hd|exact Hin| |exact Hnorm].
    intros x rest E. rewrite E in Eouter.
    cbn [join_outer in_skip existsb] in Eouter.
    destruct (join_inner x (x :: rest) σ []) as [[σ2 skip2]|]; [|discriminate].
    cbn [bind] in Eouter.
    destruct (join_outer_extends _ _ _ _ _ _ _ Eouter) as (extra & -> & _).
    now left.
Qed.

(** Joining two instances whose [art_file] was never assigned fails: the
    property yields a [Path], which cannot be unpacked. *)
Lemma joined_art_file_fresh (σ : store) (card c : obj) :
  σ !! card.1 = None -> σ !! c.1 = None ->
  forall v, joined_art_file σ card c <> Ok v.
Proof.
  intros Hcard Hc v. unfold joined_art_file, SplitLayout_art_file.
  rewrite Hcard, Hc.
  destruct (SplitLayout_name card.2) as [name|]; [|discriminate].
  cbn [bind]. destruct (index name 0) as [first|]; [|discriminate].
  cbn [bind]. destruct (str_eq _ _); discriminate.
Qed.

End Properties.

(** ** Properties of the rest of the layout classes *)

Section MoreProperties.
Context `{Collaborators} `{MoreCollaborators}.

(** *** Splitting at newlines *)

Lemma split_NL_no_nl (s : str) : Forall (fun l => ~ In 10%N l) (split NL s).
Proof.
  induction s as [|c s IH]; [repeat constructor; tauto|].
  rewrite split_NL_cons. destruct (10 =? c)%N eqn:E.
  - constructor; [tauto|exact IH].
  - apply N.eqb_neq in E. destruct (split NL s) as [|p ps].
    + repeat constructor. intros [Hc|[]]. congruence.
    + inversion IH; subst. constructor; [|assumption].
      intros [Hc|Hc]; [congruence|tauto].
Qed.

(** Joining the pieces with newlines gives the text back. *)
Lemma join_split_NL (s : str) : join NL (split NL s) = s.
Proof.
  induction s as [|c s IH]; [reflexivity|].
  rewrite split_NL_cons. pose proof (split_NL_nonempty s) as Hne.
  destruct (10 =? c)%N eqn:E.
  - apply N.eqb_eq in E. subst c.
    destruct (split NL s) as [|p ps] eqn:Es; [congruence|].
    change (join NL ([] :: p :: ps)) with ([] ++ NL ++ join NL (p :: ps)).
    now rewrite IH.
  - destruct (split NL s) as [|p ps] eqn:Es; [congruence|].
    destruct ps as [|q ps]; simpl in *; now rewrite <- IH.
Qed.

(** *** Mutate and Case texts *)

(** X1. The mutate line and the remaining text of a Mutate card are a
    lossless cut of the unprocessed text at its first line break: the
    unprocessed text is the mutate line followed by the lines of
    [oracle_text], and the mutate line holds no line break. *)
Theorem mutate_text_and_oracle_text_partition (self : Layout) :
  exists rest,
    MutateLayout_oracle_text_unprocessed self
    = lines (MutateLayout_mutate_text self :: rest)
    /\ MutateLayout_oracle_text self = lines rest
    /\ Forall (fun l => ~ In 10%N l) (MutateLayout_mutate_text self :: rest).
Proof.
  unfold MutateLayout_oracle_text, MutateLayout_mutate_text,
    get_line0, strip_lines1, lines.
  set (text := MutateLayout_oracle_text_unprocessed self).
  pose proof (join_split_NL text) as Hj.
  pose proof (split_NL_no_nl text) as Hn.
  pose proof (split_NL_nonempty text) as Hne.
  destruct (split NL text) as [|l rest]; [congruence|].
  exists rest. simpl hd. simpl tl. repeat split; [now symmetry|exact Hn].
Qed.

(** X2. [case_lines] is never empty, none of its lines holds a line break,
    and joined with line breaks the lines give the oracle text back. *)
Theorem case_lines_round_trip (self : Layout) :
  CaseLayout_case_lines self <> []
  /\ Forall (fun l => ~ In 10%N l) (CaseLayout_case_lines self)
  /\ lines (CaseLayout_case_lines self) = NormalLayout_oracle_text self.
Proof.
  unfold CaseLayout_case_lines, lines.
  repeat split;
    [apply split_NL_nonempty|apply split_NL_no_nl|apply join_split_NL].
Qed.

(** *** The minus sign of planeswalker texts *)

Lemma replace_minus (s : str) :
  ~ In 8722%N (replace MINUS_SIGN (u "-") s)
  /\ length (replace MINUS_SIGN (u "-") s) = length s.
Proof.
  unfold replace. induction s as [|c s [IH1 IH2]]; [split; [tauto|reflexivity]|].
  cbn [replace_go MINUS_SIGN startswith length Nat.sub].
  destruct (8722 =? c)%N eqn:E; cbn [andb].
  - change (u "-" ++ replace_go [8722%N] (u "-") 0 s)
      with (45%N :: replace_go [8722%N] (u "-") 0 s).
    split; [|simpl; now rewrite IH2].
    intros [Hc|Hc]; [discriminate|tauto].
  - apply N.eqb_neq in E. split; [|simpl; now rewrite IH2].
    intros [Hc|Hc]; [congruence|tauto].
Qed.

(** X3. The texts of a Planeswalker never hold the Unicode minus sign
    U+2212, neither the English text nor the displayed one, and the English
    text has the length of the text of the record. *)
Theorem planeswalker_text_has_no_minus_sign (self : Layout) :
  ~ In 8722%N (PlaneswalkerLayout_oracle_text_raw self)
  /\ ~ In 8722%N (PlaneswalkerLayout_oracle_text self)
  /\ length (PlaneswalkerLayout_oracle_text_raw self)
     = length (NormalLayout_oracle_text_raw self).
Proof.
  unfold PlaneswalkerLayout_oracle_text, PlaneswalkerLayout_oracle_text_raw.
  repeat split; try apply replace_minus.
  destruct (NormalLayout_is_alt_lang self); apply replace_minus.
Qed.

(** *** Watermark keys *)

Lemma lower_truthy (k : str) : truthy (lower k) = truthy k.
Proof. destruct k; reflexivity. Qed.

(** X4. Watermark keys are matched without regard to case: two keys with
    the same lower-case form find the same asset, and a key whose lower-case
    form is "symbol" finds the symbol of the layout's own set: [self.set],
    which for a token is the parent set named by the set data, if any. *)
Theorem find_watermark_svg_ignores_case (self : Layout) (k k' : str) :
  lower k = lower k' ->
  find_watermark_svg self (Some k) = find_watermark_svg self (Some k')
  /\ (lower k = u "symbol" ->
      find_watermark_svg self (Some k) = get_watermark_svg_from_set (set self)).
Proof.
  intros Hl.
  assert (Ht : truthy k = truthy k')
    by (rewrite <- (lower_truthy k), <- (lower_truthy k'); now rewrite Hl).
  unfold find_watermark_svg. cbn [truthy_opt get default from_option].
  unfold id. rewrite <- Ht, <- Hl. split; [reflexivity|].
  intros Hs. rewrite Hs.
  destruct (truthy k) eqn:E; [reflexivity|].
  destruct k; [discriminate Hs|discriminate E].
Qed.

(** *** Stripping and searching *)

Lemma lstrip_suffix (s : str) : exists ws, s = ws ++ lstrip s.
Proof.
  induction s as [|c s [ws IH]]; [now exists []|].
  simpl. destruct (isspace c); [|now exists []].
  exists (c :: ws). simpl. now f_equal.
Qed.

Lemma lstrip_head (s : str) (c : char) (r : str) :
  lstrip s = c :: r -> isspace c = false.
Proof.
  induction s as [|d s IH]; simpl; [discriminate|].
  destruct (isspace d) eqn:E; [exact IH|]. intros Hs. congruence.
Qed.

Lemma lstrip_fixed (c : char) (r : str) :
  isspace c = false -> lstrip (c :: r) = c :: r.
Proof. intros E. simpl. now rewrite E. Qed.

Lemma lstrip_idem (s : str) : lstrip (lstrip s) = lstrip s.
Proof.
  destruct (lstrip s) as [|c r] eqn:E; [reflexivity|].
  apply lstrip_fixed. eapply lstrip_head, E.
Qed.

Lemma rstrip_prefix (s : str) : exists ws, s = rstrip s ++ ws.
Proof.
  unfold rstrip. destruct (lstrip_suffix (rev s)) as [ws Hws].
  exists (rev ws). rewrite <- rev_app_distr, <- Hws. now rewrite rev_involutive.
Qed.

Lemma rstrip_idem (s : str) : rstrip (rstrip s) = rstrip s.
Proof. unfold rstrip. now rewrite rev_involutive, lstrip_idem. Qed.

(** A stripped string does not start with whitespace, and stripping it
    again changes nothing. *)
Lemma strip_head (s : str) (c : char) (r : str) :
  strip s = c :: r -> isspace c = false.
Proof.
  unfold strip. intros Hs.
  destruct (rstrip_prefix (lstrip s)) as [ws Hws].
  rewrite Hs in Hws. simpl in Hws. eapply lstrip_head, Hws.
Qed.

Lemma strip_idem (s : str) : strip (strip s) = strip s.
Proof.
  destruct (strip s) as [|c r] eqn:E; [reflexivity|].
  pose proof (strip_head s c r E) as Hc.
  unfold strip. rewrite (lstrip_fixed c r Hc).
  rewrite <- E. unfold strip. apply rstrip_idem.
Qed.

(** Where a substring occurs, [find] finds it, at that place or before. *)
Lemma find_from_occurrence (sub pre post : str) (k : Z) :
  k <= find_from sub (pre ++ sub ++ post) k <= k + Z.of_nat (length pre).
Proof.
  revert k. induction pre as [|c pre IH]; intros k.
  - assert (E : find_from sub (sub ++ post) k = k).
    { destruct (sub ++ post) eqn:Es; simpl; rewrite <- Es;
        now rewrite startswith_prefix. }
    simpl app. rewrite E. simpl. lia.
  - change ((c :: pre) ++ sub ++ post) with (c :: (pre ++ sub ++ post)).
    cbn [find_from]. destruct (startswith sub (c :: pre ++ sub ++ post)).
    + simpl. lia.
    + specialize (IH (k + 1)). simpl length. lia.
Qed.

Lemma find_occurrence (sub pre post : str) :
  0 <= find sub (pre ++ sub ++ post) <= Z.of_nat (length pre).
Proof. apply (find_from_occurrence sub pre post 0). Qed.

(** *** Station cards *)

Lemma str_index_cases (sub s : str) :
  (str_index sub s = Ok (find sub s) /\ 0 <= find sub s
   /\ exists pre post, s = pre ++ sub ++ post)
  \/ (str_index sub s = Raise ValueError
      /\ ~ exists pre post, s = pre ++ sub ++ post).
Proof.
  unfold str_index. destruct (find sub s <? 0) eqn:E.
  - right. split; [reflexivity|]. intros (pre & post & ->).
    pose proof (find_occurrence sub pre post). lia.
  - left. assert (Hp : 0 <= find sub s) by lia.
    repeat split; [exact Hp|].
    destruct (find_split sub s Hp) as [Hcut _]. eauto.
Qed.

Lemma digit_run_digits (s run rest : str) :
  digit_run s = (run, rest) -> forallb ascii_digit run = true.
Proof.
  revert run rest. induction s as [|c s IH]; intros run rest; simpl.
  - intros [= <- <-]. reflexivity.
  - destruct (ascii_digit c) eqn:E.
    + destruct (digit_run s) as [run' rest'] eqn:Er. intros [= <- <-].
      simpl. rewrite E. eapply IH. reflexivity.
    + intros [= <- <-]. reflexivity.
Qed.

Lemma pt_pattern_digits (line power toughness : str) :
  StationLayout_pt_pattern line = Some (power, toughness) ->
  digits power /\ digits toughness.
Proof.
  unfold StationLayout_pt_pattern.
  destruct (digit_run line) as [p rest] eqn:Ep.
  destruct p as [|c p]; [discriminate|].
  destruct rest as [|slash rest]; [discriminate|].
  destruct (slash =? 47)%N; [|discriminate].
  destruct (digit_run rest) as [t rest'] eqn:Et.
  destruct t as [|d t]; [discriminate|].
  cbn [truthy empty negb]. intros [= <- <-].
  split; (split; [discriminate|]).
  - eapply digit_run_digits, Ep.
  - eapply digit_run_digits, Et.
Qed.

Lemma station_lines_loop_keeps (ls : list str) (d : StationDetails) :
  station_requirement (station_lines_loop ls d) = station_requirement d
  /\ (match station_pt d with
      | Some (p, t) => digits p /\ digits t
      | None => True
      end ->
      match station_pt (station_lines_loop ls d) with
      | Some (p, t) => digits p /\ digits t
      | None => True
      end).
Proof.
  revert d. induction ls as [|l ls IH]; intros d; [split; auto|].
  cbn [station_lines_loop].
  destruct (StationLayout_pt_pattern l) as [[p t]|] eqn:E.
  - destruct (IH (mkStationDetails (station_requirement d)
                    (station_ability d) (Some (p, t)))) as [Hr Hp].
    split; [exact Hr|]. intros _. apply Hp. simpl.
    eapply pt_pattern_digits, E.
  - destruct (IH (mkStationDetails (station_requirement d)
                    (station_ability d ++ l ++ NL) (station_pt d))) as [Hr Hp].
    split; [exact Hr|exact Hp].
Qed.

Lemma stations_loop_ok (splits : list str) (out : list StationDetails) :
  Forall station_well_formed out ->
  exists out',
    stations_loop splits out = Ok out'
    /\ Forall station_well_formed out'
    /\ (length out' <= length out + length splits)%nat.
Proof.
  revert out. induction splits as [|piece splits IH]; intros out Hout.
  - exists out. simpl. repeat split; [exact Hout|lia].
  - cbn [stations_loop]. destruct (strip piece) as [|c r] eqn:Es.
    + cbn [truthy empty negb]. destruct (IH out Hout) as (out' & E & Hw & Hl).
      exists out'. repeat split; [exact E|exact Hw|simpl; lia].
    + cbn [truthy empty negb].
      pose proof (strip_head piece c r Es) as Hc.
      assert (Hnl : (10 =? c)%N = false).
      { apply N.eqb_neq. intros <-. vm_compute in Hc. discriminate. }
      pose proof (split_NL_no_nl (c :: r)) as Hno.
      rewrite split_NL_cons, Hnl in *.
      set (pieces := match split NL r with
                     | p :: ps => (c :: p) :: ps
                     | [] => [[c]]
                     end) in *.
      assert (Hp : exists p ps, pieces = (c :: p) :: ps).
      { subst pieces. destruct (split NL r); eauto. }
      destruct Hp as (p & ps & Hp). rewrite Hp in *. cbn [pop0 bind].
      destruct (station_lines_loop_keeps ps (mkStationDetails (c :: p) [] None))
        as [Hr Hpt].
      match goal with
      | |- context [stations_loop splits (out ++ [?d])] =>
          destruct (IH (out ++ [d])) as (out' & E & Hw & Hl)
      end.
      * apply Forall_app. split; [exact Hout|]. constructor; [|constructor].
        unfold station_well_formed. cbn [station_requirement station_ability
          station_pt]. rewrite Hr. cbn [station_requirement].
        inversion Hno; subst.
        repeat split; [discriminate|assumption|apply strip_idem|].
        now apply Hpt.
      * exists out'. repeat split; [exact E|exact Hw|].
        rewrite length_app in Hl. simpl in *. lia.
Qed.

(** X5. A Station text without the marker "\nSTATION " makes both
    [oracle_text] and [stations] raise [ValueError]; with the marker, both
    return. *)
Theorem station_marker_required (self : Layout) :
  let text := StationLayout_oracle_text_unprocessed self in
  ((exists pre post, text = pre ++ STATION_MARKER ++ post)
   /\ is_ok (StationLayout_oracle_text self) = true
   /\ is_ok (StationLayout_stations self) = true)
  \/ ((~ exists pre post, text = pre ++ STATION_MARKER ++ post)
      /\ StationLayout_oracle_text self = Raise ValueError
      /\ StationLayout_stations self = Raise ValueError).
Proof.
  intros text. unfold StationLayout_oracle_text, StationLayout_stations.
  fold text.
  destruct (str_index_cases STATION_MARKER text) as [(E & _ & Hocc)|(E & Hocc)];
    rewrite E; cbn [bind].
  - left. split; [exact Hocc|]. split; [reflexivity|].
    match goal with
    | |- is_ok (stations_loop ?sp []) = true =>
        destruct (stations_loop_ok sp [] ltac:(constructor)) as (out & Eo & _)
    end.
    now rewrite Eo.
  - right. repeat split. exact Hocc.
Qed.

(** X6. When [oracle_text] of a Station card returns, it is the text before
    the first marker "\nSTATION ": the unprocessed text is that text, the
    marker and a remainder, and no occurrence of the marker starts
    earlier. *)
Theorem station_oracle_text_is_text_before_first_marker (self : Layout)
    (text : str) :
  StationLayout_oracle_text self = Ok text ->
  (exists rest,
     StationLayout_oracle_text_unprocessed self = text ++ STATION_MARKER ++ rest)
  /\ forall pre post,
       StationLayout_oracle_text_unprocessed self = pre ++ STATION_MARKER ++ post ->
       (length text <= length pre)%nat.
Proof.
  unfold StationLayout_oracle_text.
  set (whole := StationLayout_oracle_text_unprocessed self).
  destruct (str_index_cases STATION_MARKER whole) as [(E & Hp & _)|(E & _)];
    rewrite E; cbn [bind]; [|discriminate].
  intros [= <-]. destruct (find_split STATION_MARKER whole Hp) as [Hcut Hlen].
  split; [eauto|].
  intros pre post Hw. rewrite Hlen.
  pose proof (find_occurrence STATION_MARKER pre post) as Hb.
  rewrite <- Hw in Hb. lia.
Qed.

(** X7. Every entry of [stations] has a non-empty, single-line
    requirement, an ability without leading or trailing whitespace, and,
    when it has a power/toughness, two non-empty strings of digits. *)
Theorem stations_are_well_formed (self : Layout) (out : list StationDetails) :
  StationLayout_stations self = Ok out ->
  Forall station_well_formed out.
Proof.
  unfold StationLayout_stations.
  destruct (str_index STATION_MARKER (StationLayout_oracle_text_unprocessed self))
    as [start|]; cbn [bind]; [|discriminate].
  match goal with
  | |- stations_loop ?sp [] = _ -> _ =>
      destruct (stations_loop_ok sp [] ltac:(constructor)) as (out' & E & Hw & _)
  end.
  rewrite E. intros [= <-]. exact Hw.
Qed.

(** *** Artist names *)

Lemma str_eq_true (a b : str) : str_eq a b = true <-> a = b.
Proof. unfold str_eq. apply bool_decide_eq_true. Qed.

Lemma existsb_str_eq (w : str) (l : list str) :
  existsb (str_eq w) l = true <-> In w l.
Proof.
  rewrite existsb_exists. split.
  - intros (x & Hx & E). apply str_eq_true in E. now subst.
  - intros Hw. exists w. split; [exact Hw|now apply str_eq_true].
Qed.

Lemma remove_first_spec (w : str) (l : list str) :
  List.NoDup l ->
  List.NoDup (remove_first w l)
  /\ forall x, In x (remove_first w l) <-> In x l /\ x <> w.
Proof.
  induction 1 as [|y l Hy Hl [IH1 IH2]]; simpl.
  - split; [constructor|]. tauto.
  - destruct (str_eq y w) eqn:E.
    + apply str_eq_true in E. subst y. split; [exact Hl|].
      intros x. split; [intros Hx; split; [tauto|congruence]|].
      intros [[Hx|Hx] Hne]; [congruence|exact Hx].
    + assert (Hne : y <> w).
      { intros ->. rewrite (proj2 (str_eq_true w w) eq_refl) in E. discriminate. }
      split.
      * constructor; [|exact IH1]. intros Hin. apply IH2 in Hin. tauto.
      * intros x. simpl. rewrite IH2. split.
        -- intros [<-|[Hx Hxw]]; tauto.
        -- intros [[<-|Hx] Hxw]; tauto.
Qed.

Lemma NoDup_snoc (w : str) (l : list str) :
  List.NoDup l -> ~ In w l -> List.NoDup (l ++ [w]).
Proof.
  induction 1 as [|y l Hy Hl IH]; intros Hw; simpl.
  - constructor; [tauto|constructor].
  - constructor.
    + intros Hin. apply in_app_or in Hin as [Hin|[<-|[]]]; [tauto|].
      apply Hw. now left.
    + apply IH. intros Hin. apply Hw. now right.
Qed.

Lemma artist_loop_spec (words count : list str) :
  List.NoDup count ->
  List.NoDup (artist_loop words count)
  /\ forall x, In x (artist_loop words count) <-> In x count \/ In x words.
Proof.
  revert count. induction words as [|w words IH]; intros count Hc; simpl.
  - split; [exact Hc|]. tauto.
  - destruct (existsb (str_eq w) count) eqn:E.
    + destruct (remove_first_spec w count Hc) as [Hn Hin].
      destruct (IH (remove_first w count ++ [w])) as [IH1 IH2].
      { apply NoDup_snoc; [exact Hn|]. rewrite Hin. tauto. }
      split; [exact IH1|]. intros x. rewrite IH2, in_app_iff, Hin. simpl.
      destruct (decide (x = w)) as [->|Hne]; tauto.
    + destruct (IH (count ++ [w])) as [IH1 IH2].
      { apply NoDup_snoc; [exact Hc|]. intros Hin.
        apply existsb_str_eq in Hin. congruence. }
      split; [exact IH1|]. intros x. rewrite IH2, in_app_iff. simpl. tauto.
Qed.

(** X8. An artist name given in the art file name is used as it is. With
    none given, a listed name that holds an ampersand comes back as its
    words, each kept once: no word of the result is repeated, and the result
    has exactly the words of the listed name. *)
Theorem artist_words_are_not_repeated (given listed : option str) :
  truthy_opt given = false ->
  contains (u "&") (get listed (u "Unknown")) = true ->
  (exists words,
     artist_of given listed = join (u " ") words
     /\ List.NoDup words
     /\ forall w, In w words <-> In w (split (u " ") (get listed (u "Unknown"))))
  /\ forall name, name <> [] -> artist_of (Some name) listed = name.
Proof.
  intros Hg Ha. split.
  - unfold artist_of. rewrite Hg, Ha.
    destruct (artist_loop_spec (split (u " ") (get listed (u "Unknown"))) [])
      as [Hn Hin]; [constructor|].
    eexists. split; [reflexivity|]. split; [exact Hn|].
    intros w. rewrite Hin. simpl. tauto.
  - intros [|c name] Hne; [congruence|]. reflexivity.
Qed.

(** *** The opposing face *)

(** X9. For every class other than [SplitLayout], on a record with two
    faces of different names, [other_face] is the face that [card] is not,
    and the face it returns never has the name of the layout's own face. *)
Theorem other_face_is_the_opposing_face (self : Layout) (a b : Face.t) :
  cls self <> Cls.SplitLayout ->
  Scryfall.card_faces (scryfall self) = Some [a; b] ->
  Face.name a <> Face.name b ->
  (card self = Ok a -> NormalLayout_other_face self = Ok (Some b))
  /\ (card self = Ok b -> NormalLayout_other_face self = Ok (Some a))
  /\ forall f, NormalLayout_other_face self = Ok (Some f) ->
               name_raw self <> Ok (Face.name f).
Proof.
  intros Hcls Hf Hne.
  assert (Hcard : card self = Ok (NormalLayout_card self))
    by (unfold card; destruct (cls self); congruence).
  assert (Hname : name_raw self = Ok (Face.name (NormalLayout_card self)))
    by (unfold name_raw, NormalLayout_name_raw; destruct (cls self); congruence).
  unfold NormalLayout_other_face. rewrite Hcard, Hname, Hf.
  cbn [get default from_option bind other_face_loop]. unfold id.
  split; [|split].
  - intros [= ->]. cbn [other_face_loop]. unfold str_eq.
    repeat case_bool_decide; cbn [negb]; congruence.
  - intros [= ->]. cbn [other_face_loop]. unfold str_eq.
    repeat case_bool_decide; cbn [negb]; congruence.
  - intros f. cbn [other_face_loop]. unfold str_eq.
    repeat case_bool_decide; cbn [negb]; intros [= <-]; congruence.
Qed.

(** *** Joining dual layouts, continued *)

Lemma no_split_normal (layouts : list item) :
  (forall n, In n layouts -> is_split n = false) ->
  normal_of layouts = layouts /\ split_of layouts = [].
Proof.
  unfold normal_of. induction layouts as [|n l IH]; intros Hn; [split; reflexivity|].
  destruct IH as [IH1 IH2]; [intros m Hm; apply Hn; now right|].
  pose proof (Hn n (or_introl eq_refl)) as E. simpl. rewrite E. simpl.
  rewrite IH1. split; [reflexivity|].
  destruct n as [s0|r o]; [exact IH2|]. simpl in E. now rewrite E.
Qed.

(** X10. A batch without any Split instance is returned as it is, whatever
    it holds (error messages, other layouts), and nothing is assigned. *)
Theorem join_without_split_is_identity (σ : store) (layouts : list item) :
  (forall n, In n layouts -> is_split n = false) ->
  join_dual_card_layouts σ layouts = Ok (σ, layouts).
Proof.
  intros Hn. destruct (no_split_normal layouts Hn) as [E1 E2].
  unfold join_dual_card_layouts. now rewrite E1, E2.
Qed.

Lemma normal_split_length (layouts : list item) :
  (length (normal_of layouts) + length (split_of layouts))%nat = length layouts.
Proof.
  unfold normal_of. induction layouts as [|[s0|r o] l IH]; simpl; [reflexivity|lia|].
  destruct (LayoutType.eqb (card_class o) LayoutType.Split); simpl; lia.
Qed.

Lemma normal_of_In (layouts : list item) (n : item) :
  In n (normal_of layouts) -> In n layouts.
Proof. unfold normal_of. intros Hn. now apply filter_In in Hn. Qed.

Lemma join_outer_bounds (S cards : list obj) (σ σ' : store) (skip : list nat)
    (add add' : list obj) :
  join_outer S cards σ skip add = Ok (σ', add') ->
  (length add' <= length add + length cards)%nat
  /\ forall r, (forall x, In x cards -> x.1 <> r) -> σ' !! r = σ !! r.
Proof.
  revert σ skip add. induction cards as [|card cards IH]; intros σ skip add Hrun.
  - simpl in Hrun. injection Hrun as <- <-. split; [lia|reflexivity].
  - cbn [join_outer] in Hrun. destruct (in_skip card skip).
    + destruct (IH _ _ _ Hrun) as [Hl Hs]. split; [simpl; lia|].
      intros r Hr. apply Hs. intros x Hx. apply Hr. now right.
    + destruct (join_inner card S σ skip) as [[σ1 skip1]|] eqn:Einner;
        [|discriminate].
      cbn [bind] in Hrun. destruct (IH _ _ _ Hrun) as [Hl Hs].
      destruct (join_inner_ok _ _ _ _ _ _ Einner) as (_ & Hst & _).
      split; [rewrite length_app in Hl; simpl in *; lia|].
      intros r Hr. rewrite Hs by (intros x Hx; apply Hr; now right).
      apply Hst. apply not_eq_sym, Hr. now left.
Qed.

(** X11. A returned list never holds more entries than the batch, each of
    its entries is an entry of the batch, and [art_file] is assigned to no
    instance other than the Split instances of the batch. *)
Theorem join_returns_entries_of_the_batch (σ σ' : store)
    (layouts out : list item) :
  join_dual_card_layouts σ layouts = Ok (σ', out) ->
  (forall n, In n out -> In n layouts)
  /\ (length out <= length layouts)%nat
  /\ forall r, (forall x, In x (split_of layouts) -> x.1 <> r) ->
               σ' !! r = σ !! r.
Proof.
  intros Hrun.
  destruct (join_dual_ok _ _ _ _ Hrun) as (add & -> & Eouter & _ & Hin & _ & _).
  destruct (join_outer_bounds _ _ _ _ _ _ _ Eouter) as [Hl Hs].
  split; [|split; [|exact Hs]].
  - intros n Hn. apply in_app_or in Hn as [Hn|Hn]; [now apply normal_of_In|].
    apply in_map_iff in Hn as (x & <- & Hx). now apply split_of_In, Hin.
  - rewrite length_app, length_map. pose proof (normal_split_length layouts).
    simpl in Hl. lia.
Qed.

(** *** Split texts *)

Lemma shared_reminder_loop_spec (texts : list str) (prev r : str) :
  SplitLayout_shared_reminder_loop texts prev = r -> r <> [] ->
  Forall (fun t => is_Some (TEXT_REMINDER_ENDING_match t)) texts
  /\ match last texts with
     | Some t => TEXT_REMINDER_ENDING_match t = Some r
     | None => prev = r
     end.
Proof.
  revert prev. induction texts as [|t texts IH]; intros prev Hr Hne.
  - simpl in *. split; [constructor|exact Hr].
  - cbn [SplitLayout_shared_reminder_loop] in Hr.
    destruct (TEXT_REMINDER_ENDING_match t) as [m|] eqn:Em.
    + rewrite bool_decide_eq_true_2 in Hr by eauto. cbn [negb orb get default
        from_option] in Hr. unfold id in Hr.
      destruct (truthy prev && negb (str_eq prev m)); [congruence|].
      destruct (IH m Hr Hne) as [Hall Hlast]. split; [constructor; eauto|].
      destruct texts as [|t' texts]; [simpl in *; now subst|].
      change (last (t :: t' :: texts)) with (last (t' :: texts)).
      destruct (last (t' :: texts)) eqn:El; [exact Hlast|].
      apply last_None in El. discriminate.
    + rewrite bool_decide_eq_false_2 in Hr by (intros [? ?]; discriminate).
      cbn [negb orb] in Hr. congruence.
Qed.

(** X14. Without the Fuse keyword: when no shared reminder is found, the
    oracle texts are the texts of the faces, unchanged; when one is found,
    every face text matches the reminder pattern, the reminder is what the
    pattern captured in the last face's text, and each oracle text is the
    face's text without its last characters, as many as the reminder has,
    right-stripped. *)
Theorem split_oracle_texts_without_fuse (self : Layout) :
  has_fuse self = false ->
  let reminder := SplitLayout_shared_reminder self in
  let texts := SplitLayout_face_texts self in
  (reminder = [] -> SplitLayout_oracle_texts self = texts)
  /\ (reminder <> [] ->
      Forall (fun t => is_Some (TEXT_REMINDER_ENDING_match t)) texts
      /\ (exists t, last texts = Some t
                    /\ TEXT_REMINDER_ENDING_match t = Some reminder)
      /\ SplitLayout_oracle_texts self
         = map (fun t => rstrip (take (length t - length reminder) t)) texts).
Proof.
  intros Hf reminder texts.
  assert (E : SplitLayout_oracle_texts self
              = map (SplitLayout_oracle_text_for self) texts).
  { unfold SplitLayout_oracle_texts. now rewrite oracle_texts_loop_map. }
  split.
  - intros Hr. rewrite E. rewrite <- (map_id texts) at 2. apply map_ext.
    intros t. unfold SplitLayout_oracle_text_for. fold reminder.
    now rewrite Hf, Hr.
  - intros Hr.
    destruct (shared_reminder_loop_spec texts [] reminder eq_refl Hr)
      as [Hall Hlast].
    split; [exact Hall|]. split.
    + destruct (last texts) as [t|]; [eauto|]. congruence.
    + rewrite E. apply map_ext. intros t.
      unfold SplitLayout_oracle_text_for. fold reminder. rewrite Hf.
      destruct reminder; [congruence|reflexivity].
Qed.

(** *** Collector information *)

Lemma card_count_is_at_least_collector_number_aux (self : Layout) (count : Z) :
  NormalLayout_card_count self = Ok (Some count) ->
  collector_mode_is_normal = true
  /\ truthy_opt (NormalLayout_collector_number_raw self) = true
  /\ exists number,
       NormalLayout_collector_number self = Ok number
       /\ 0 <= number <= count.
Proof.
  unfold NormalLayout_card_count.
  destruct collector_mode_is_normal; [|discriminate].
  destruct (truthy_opt (NormalLayout_collector_number_raw self)) eqn:Et;
    [|discriminate].
  cbn [negb orb]. intros Hc. split; [reflexivity|]. split; [reflexivity|].
  destruct (match SetData.count_printed (NormalLayout_set_data self) with
            | Some c => Some c
            | None => SetData.count_cards (NormalLayout_set_data self)
            end) as [c|]; [|discriminate].
  destruct (NormalLayout_collector_number self) as [number|] eqn:En;
    [|discriminate].
  pose proof (collector_number_nonneg self number En) as Hn.
  cbn [bind] in Hc. exists number. split; [reflexivity|].
  destruct (c >=? number) eqn:Ege; [|discriminate].
  injection Hc as ->. lia.
Qed.

Lemma token_card_count_cases (self : Layout) (count : Z) :
  TokenLayout_card_count self = Ok (Some count) ->
  collector_mode_is_normal = true
  /\ truthy_opt (NormalLayout_collector_number_raw self) = true
  /\ SetData.count_tokens (NormalLayout_set_data self) = Some count.
Proof.
  unfold TokenLayout_card_count.
  destruct collector_mode_is_normal; [|discriminate].
  destruct (truthy_opt (NormalLayout_collector_number_raw self));
    [|discriminate].
  cbn [negb orb]. intros [= ->]. repeat split.
Qed.

(** X15. A card count is given in the Normal collector mode and for a
    non-empty collector number only. For every class other than
    [TokenLayout] it is never smaller than the collector number, which is
    then a non-negative integer; for a token it is the token count of the
    set data, whatever the collector number. *)
Theorem card_count_is_at_least_collector_number (self : Layout) (count : Z) :
  card_count self = Ok (Some count) ->
  collector_mode_is_normal = true
  /\ truthy_opt (NormalLayout_collector_number_raw self) = true
  /\ (cls self <> Cls.TokenLayout ->
      exists number,
        NormalLayout_collector_number self = Ok number
        /\ 0 <= number <= count)
  /\ (cls self = Cls.TokenLayout ->
      SetData.count_tokens (NormalLayout_set_data self) = Some count).
Proof.
  unfold card_count. intros Hc.
  destruct (cls self) eqn:Ecls;
    try (destruct (card_count_is_at_least_collector_number_aux self count Hc)
           as (Hm & Hraw & Hn);
         split; [exact Hm|]; split; [exact Hraw|];
         split; [intros _; exact Hn|discriminate]).
  destruct (token_card_count_cases self count Hc) as (Hm & Hraw & Ht).
  split; [exact Hm|]. split; [exact Hraw|].
  split; [congruence|intros _; exact Ht].
Qed.

(** The letter of the collector line: T for a token, the rarity letter for
    every other class. *)
Lemma normal_collector_data_shape (self : Layout) (line : str) :
  NormalLayout_collector_data self = Ok line ->
  (line = [] <-> truthy_opt (NormalLayout_collector_number_raw self) = false)
  /\ (truthy_opt (NormalLayout_collector_number_raw self) = true ->
      exists number letter,
        NormalLayout_collector_number self = Ok number
        /\ NormalLayout_rarity_letter self = Ok letter
        /\ (line = letter ++ u " " ++ zfill 4 (str_of_int number)
            \/ exists count,
                 NormalLayout_card_count self = Ok (Some count)
                 /\ number <= count
                 /\ line = zfill 3 (str_of_int number) ++ u "/"
                           ++ zfill 3 (str_of_int count) ++ u " " ++ letter)).
Proof.
  unfold NormalLayout_collector_data.
  destruct (NormalLayout_card_count self) as [count|] eqn:Ec; [|discriminate].
  cbn [bind].
  destruct (count_truthy count) eqn:Et.
  - destruct count as [c|]; [|discriminate]. cbn [get default from_option].
    unfold id.
    destruct (card_count_is_at_least_collector_number_aux self c Ec)
      as (_ & Hraw & number & En & Hle).
    rewrite En. cbn [bind].
    destruct (NormalLayout_rarity_letter self) as [letter|] eqn:El; [|discriminate].
    cbn [bind]. intros [= <-]. split.
    + rewrite Hraw. split; [|discriminate].
      intros E. apply (f_equal (@length N)) in E.
      rewrite !length_app in E. simpl in E. lia.
    + intros _. exists number, letter.
      split; [reflexivity|]. split; [reflexivity|]. right. exists c.
      split; [reflexivity|]. split; [lia|reflexivity].
  - destruct (truthy_opt (NormalLayout_collector_number_raw self)) eqn:Eraw.
    + destruct (NormalLayout_rarity_letter self) as [letter|] eqn:El; [|discriminate].
      cbn [bind].
      destruct (NormalLayout_collector_number self) as [number|] eqn:En;
        [|discriminate].
      cbn [bind]. intros [= <-]. split.
      * split; [|discriminate]. intros E. apply (f_equal (@length N)) in E.
        rewrite !length_app in E. simpl in E. lia.
      * intros _. exists number, letter.
        split; [reflexivity|]. split; [reflexivity|]. now left.
    + intros [= <-]. split; [tauto|discriminate].
Qed.

Lemma token_collector_data_shape (self : Layout) (line : str) :
  TokenLayout_collector_data self = Ok line ->
  (line = [] <-> truthy_opt (NormalLayout_collector_number_raw self) = false)
  /\ (truthy_opt (NormalLayout_collector_number_raw self) = true ->
      exists number,
        NormalLayout_collector_number self = Ok number
        /\ (line = u "T" ++ u " " ++ zfill 4 (str_of_int number)
            \/ exists count,
                 TokenLayout_card_count self = Ok (Some count)
                 /\ line = zfill 3 (str_of_int number) ++ u "/"
                           ++ zfill 3 (str_of_int count) ++ u " " ++ u "T")).
Proof.
  unfold TokenLayout_collector_data.
  destruct (TokenLayout_card_count self) as [count|] eqn:Ec; [|discriminate].
  cbn [bind].
  destruct (count_truthy count) eqn:Et.
  - destruct count as [c|]; [|discriminate]. cbn [get default from_option].
    unfold id.
    destruct (token_card_count_cases self c Ec) as (_ & Hraw & _).
    destruct (NormalLayout_collector_number self) as [number|] eqn:En;
      [|discriminate].
    cbn [bind]. intros [= <-]. split.
    + rewrite Hraw. split; [|discriminate].
      intros E. apply (f_equal (@length N)) in E.
      rewrite !length_app in E. simpl in E. lia.
    + intros _. exists number. split; [reflexivity|]. right. exists c.
      split; reflexivity.
  - destruct (truthy_opt (NormalLayout_collector_number_raw self)) eqn:Eraw.
    + destruct (NormalLayout_collector_number self) as [number|] eqn:En;
        [|discriminate].
      cbn [bind]. intros [= <-]. split.
      * split; discriminate.
      * intros _. exists number. split; [reflexivity|]. now left.
    + intros [= <-]. split; [tauto|discriminate].
Qed.

(** X16. The collector line, when [collector_data] returns one, is empty
    exactly when the record has no collector number (absent or empty).
    Otherwise it is the letter, a space and the number filled to four
    digits, or, with a card count, number/count, each filled to three
    digits, a space and the letter. The letter is T for a token and the
    rarity letter for every other class; for these the count is at least
    the number. *)
Theorem collector_data_shape (self : Layout) (line : str) :
  collector_data self = Ok line ->
  (line = [] <-> truthy_opt (NormalLayout_collector_number_raw self) = false)
  /\ (truthy_opt (NormalLayout_collector_number_raw self) = true ->
      exists number letter,
        NormalLayout_collector_number self = Ok number
        /\ match cls self with
           | Cls.TokenLayout => letter = u "T"
           | _ => NormalLayout_rarity_letter self = Ok letter
           end
        /\ (line = letter ++ u " " ++ zfill 4 (str_of_int number)
            \/ exists count,
                 card_count self = Ok (Some count)
                 /\ (cls self <> Cls.TokenLayout -> number <= count)
                 /\ line = zfill 3 (str_of_int number) ++ u "/"
                           ++ zfill 3 (str_of_int count) ++ u " " ++ letter)).
Proof.
  unfold collector_data, card_count. intros Hd.
  destruct (cls self) eqn:Ecls;
    try (destruct (normal_collector_data_shape self line Hd) as [He Hs];
         split; [exact He|]; intros Hraw;
         destruct (Hs Hraw) as (number & letter & En & El & Hline);
         exists number, letter; split; [exact En|];
         split; [exact El|];
         destruct Hline as [Hline|(count & Hc & Hle & Hline)];
         [left; exact Hline|right; exists count; auto]).
  destruct (token_collector_data_shape self line Hd) as [He Hs].
  split; [exact He|]. intros Hraw.
  destruct (Hs Hraw) as (number & En & Hline).
  exists number, (u "T"). split; [exact En|]. split; [reflexivity|].
  destruct Hline as [Hline|(count & Hc & Hline)];
    [left; exact Hline|right; exists count].
  split; [exact Hc|]. split; [congruence|exact Hline].
Qed.

(** *** Class levels *)

Lemma class_append_to_last_snoc (l : list ClassLine) (a : ClassLine)
    (extra : str) :
  class_append_to_last (l ++ [a]) extra
  = Ok (l ++ [mkClassLine (class_line_text a ++ extra)
                (class_line_cost a) (class_line_level a)]).
Proof.
  unfold class_append_to_last. rewrite rev_app_distr. simpl.
  now rewrite rev_involutive.
Qed.

Lemma line_pairs_join (ls : list str) (x : str) :
  x ++ concat (map (fun p => NL ++ p) (line_pairs ls)) = join NL (x :: ls).
Proof.
  assert (Hn : forall n ls x, (length ls <= n)%nat ->
             x ++ concat (map (fun p => NL ++ p) (line_pairs ls))
             = join NL (x :: ls)).
  { clear ls x. induction n as [|n IH]; intros [|a [|b ls]] x Hlen;
      simpl in Hlen; try lia.
    - simpl. now rewrite app_nil_r.
    - simpl. now rewrite app_nil_r.
    - simpl. now rewrite !app_nil_r.
    - change (join NL (x :: a :: b :: ls))
        with (x ++ NL ++ a ++ NL ++ join NL (b :: ls)).
      rewrite <- (IH ls b) by lia. simpl.
      rewrite <- !app_assoc. reflexivity. }
  apply (Hn (length ls)). lia.
Qed.

Lemma class_append_to_last_cons (first : ClassLine) (rest : list ClassLine)
    (extra : str) :
  Forall (fun a => exists c l, class_line_cost a = Some c
                               /\ class_line_level a = LevelStr l) rest ->
  exists first1 rest1,
    class_append_to_last (first :: rest) extra = Ok (first1 :: rest1)
    /\ class_line_cost first1 = class_line_cost first
    /\ class_line_level first1 = class_line_level first
    /\ Forall (fun a => exists c l, class_line_cost a = Some c
                                    /\ class_line_level a = LevelStr l) rest1
    /\ length rest1 = length rest
    /\ (rest = [] -> class_line_text first1 = class_line_text first ++ extra).
Proof.
  intros Hrest. destruct rest as [|b rest _] using rev_ind.
  - exists (mkClassLine (class_line_text first ++ extra)
              (class_line_cost first) (class_line_level first)), [].
    repeat split. constructor.
  - change (first :: rest ++ [b]) with ((first :: rest) ++ [b]).
    rewrite class_append_to_last_snoc.
    apply Forall_app in Hrest as [Hrest Hb].
    exists first, (rest ++ [mkClassLine (class_line_text b ++ extra)
                              (class_line_cost b) (class_line_level b)]).
    split; [reflexivity|]. split; [reflexivity|]. split; [reflexivity|].
    split; [|split].
    + apply Forall_app. split; [exact Hrest|].
      inversion Hb; subst. constructor; [assumption|constructor].
    + rewrite !length_app. reflexivity.
    + intros E. destruct rest; discriminate.
Qed.

Lemma class_lines_loop_spec (pairs : list str) (first : ClassLine)
    (rest : list ClassLine) :
  Forall (fun a => exists c l, class_line_cost a = Some c
                               /\ class_line_level a = LevelStr l) rest ->
  exists first' rest',
    class_lines_loop pairs (first :: rest) = Ok (first' :: rest')
    /\ class_line_cost first' = class_line_cost first
    /\ class_line_level first' = class_line_level first
    /\ Forall (fun a => exists c l, class_line_cost a = Some c
                                    /\ class_line_level a = LevelStr l) rest'
    /\ length rest'
       = (length rest + length (List.filter class_level_up pairs))%nat
    /\ (Forall (fun p => class_level_up p = false) pairs -> rest = [] ->
        class_line_text first'
        = class_line_text first ++ concat (map (fun p => NL ++ p) pairs)).
Proof.
  revert first rest. induction pairs as [|line pairs IH]; intros first rest Hrest.
  - exists first, rest. simpl. rewrite app_nil_r.
    repeat split; auto.
  - assert (Hstep : class_level_up line = false ->
              exists first' rest',
                (do abilities' <- class_append_to_last (first :: rest) (NL ++ line);
                 class_lines_loop pairs abilities') = Ok (first' :: rest')
                /\ class_line_cost first' = class_line_cost first
                /\ class_line_level first' = class_line_level first
                /\ Forall (fun a => exists c l, class_line_cost a = Some c
                                     /\ class_line_level a = LevelStr l) rest'
                /\ length rest'
                   = (length rest
                      + length (List.filter class_level_up (line :: pairs)))%nat
                /\ (Forall (fun p => class_level_up p = false) (line :: pairs) ->
                    rest = [] ->
                    class_line_text first'
                    = class_line_text first
                      ++ concat (map (fun p => NL ++ p) (line :: pairs)))).
    { intros Eup.
      destruct (class_append_to_last_cons first rest (NL ++ line) Hrest)
        as (first1 & rest1 & Ea & Hc1 & Hl1 & Hr1 & Hlen1 & Ht1).
      rewrite Ea. cbn [bind].
      destruct (IH first1 rest1 Hr1) as (f & r & E & Hc & Hl & Hr & Hlen & Ht).
      exists f, r. split; [exact E|]. split; [congruence|].
      split; [congruence|]. split; [exact Hr|]. split.
      - cbn [List.filter]. rewrite Eup. lia.
      - intros Hall Hnil. inversion Hall; subst.
        rewrite Ht; [|assumption|destruct rest1; [reflexivity|discriminate]].
        rewrite Ht1 by reflexivity. simpl. now rewrite <- !app_assoc. }
    cbn [class_lines_loop].
    destruct (CLASS_match_groups line) as [groups|] eqn:Eg;
      [|apply Hstep; unfold class_level_up; now rewrite Eg].
    destruct (3 <=? Z.of_nat (length groups)) eqn:E3;
      [|apply Hstep; unfold class_level_up; now rewrite Eg].
    destruct groups as [|g1 [|g2 [|g3 groups]]];
      try (vm_compute in E3; discriminate E3).
    cbn [index lookup list_lookup bind].
    change (first :: rest ++ [mkClassLine g3 (Some g1) (LevelStr g2)])
      with (first :: (rest ++ [mkClassLine g3 (Some g1) (LevelStr g2)])).
    destruct (IH first (rest ++ [mkClassLine g3 (Some g1) (LevelStr g2)]))
      as (f & r & E & Hc & Hl & Hr & Hlen & _).
    { apply Forall_app. split; [exact Hrest|].
      constructor; [|constructor]. simpl. eauto. }
    exists f, r. split; [exact E|]. split; [exact Hc|].
    split; [exact Hl|]. split; [exact Hr|]. split.
    + assert (Eup : class_level_up line = true)
        by (unfold class_level_up; now rewrite Eg).
      cbn [List.filter]. rewrite Eup, Hlen, length_app. simpl. lia.
    + intros Hall. inversion Hall as [|? ? Hup]; subst.
      unfold class_level_up in Hup. rewrite Eg, E3 in Hup. discriminate.
Qed.

(** X17. [class_lines] never fails. Its first entry is the level-1 ability:
    no cost, level 1; every later entry has a cost and the level the
    pattern captured, and there is one of them for each pair of lines of
    the class text, after its first line, that the CLASS pattern matches
    with its three groups. When no pair of lines of the card is matched
    there is the first entry only, and its text is the whole class text: no
    line is lost. *)
Theorem class_lines_start_at_level_one (self : Layout) :
  let pairs := line_pairs (tl (split NL (ClassLayout_class_text self))) in
  exists first rest,
    ClassLayout_class_lines self = Ok (first :: rest)
    /\ class_line_cost first = None
    /\ class_line_level first = LevelInt 1
    /\ Forall (fun a => exists c l, class_line_cost a = Some c
                                    /\ class_line_level a = LevelStr l) rest
    /\ length rest = length (List.filter class_level_up pairs)
    /\ (Forall (fun p => class_level_up p = false) pairs ->
        rest = [] /\ class_line_text first = ClassLayout_class_text self).
Proof.
  intros pairs. subst pairs. unfold ClassLayout_class_lines.
  pose proof (join_split_NL (ClassLayout_class_text self)) as Hj.
  pose proof (split_NL_nonempty (ClassLayout_class_text self)) as Hne.
  destruct (split NL (ClassLayout_class_text self)) as [|initial ls];
    [congruence|].
  cbn [pop0 bind tl].
  destruct (class_lines_loop_spec (line_pairs ls)
              (mkClassLine initial None (LevelInt 1)) [])
    as (first & rest & E & Hc & Hl & Hr & Hlen & Ht); [constructor|].
  exists first, rest. split; [exact E|]. split; [exact Hc|].
  split; [exact Hl|]. split; [exact Hr|]. split; [exact Hlen|].
  intros Hall. split.
  - apply length_zero_iff_nil. rewrite Hlen. simpl.
    clear -Hall. induction Hall as [|p ps Hp _ IH]; [reflexivity|].
    cbn [List.filter]. rewrite Hp. exact IH.
  - rewrite Ht by (assumption || reflexivity). simpl.
    now rewrite line_pairs_join.
Qed.

End MoreProperties.




(** ** The properties on the sample data *)

#[local] Existing Instance Samples.env.

(** C1. Fire // Ice classified from [Fire.jpg] and from [Ice.jpg]: the two
    instances have the same display string, the [art_file] of each is a single
    [Path], and [join_dual_card_layouts] raises [TypeError] instead of
    returning one instance with the two files. Were the files held in lists,
    the order test, which compares the first character of the first face's
    name with the art file name, would put the file of Ice first. *)
Theorem join_two_split_instances_raises :
  SplitLayout_str Samples.split_fire = Ok (u "Fire // Ice [APC] {128}")
  /\ SplitLayout_str Samples.split_ice = Ok (u "Fire // Ice [APC] {128}")
  /\ SplitLayout_art_file ∅ (1%nat, Samples.split_fire)
     = Ok (VPath Samples.fire_jpg)
  /\ join_dual_card_layouts ∅
       [IObj 1 Samples.split_fire; IObj 2 Samples.split_ice]
     = Raise TypeError
  /\ join_dual_card_layouts ∅
       [IObj 2 Samples.split_ice; IObj 1 Samples.split_fire]
     = Raise TypeError
  /\ joined_art_file Samples.lists_store
       (1%nat, Samples.split_fire) (2%nat, Samples.split_ice)
     = Ok [Samples.ice_jpg; Samples.fire_jpg].
Proof. repeat split; vm_compute; reflexivity. Qed.

(** C2 on a batch that returns: an error message, Fire // Ice and
    Wear // Tear. *)
Lemma join_dual_card_layouts_idempotent_witness :
  let batch := [IObj 1 Samples.split_fire; IStr (u "Layout incompatible");
                IObj 4 Samples.split_wear] in
  let out := [IStr (u "Layout incompatible"); IObj 1 Samples.split_fire;
              IObj 4 Samples.split_wear] in
  join_dual_card_layouts ∅ batch = Ok (∅, out)
  /\ join_dual_card_layouts ∅ out = Ok (∅, out).
Proof.
  intros batch out.
  assert (Hrun : join_dual_card_layouts ∅ batch = Ok (∅, out))
    by (vm_compute; reflexivity).
  split; [exact Hrun|].
  exact (proj1 (join_dual_card_layouts_idempotent ∅ ∅ batch out Hrun)).
Defined.

(** C3 on three instances of Fire // Ice whose [art_file] already holds a
    list: the first instance takes the files of the two others and is the
    only one returned. *)
Lemma join_has_no_merge_ambiguity_witness :
  let batch := [IObj 1 Samples.split_fire; IObj 2 Samples.split_ice;
                IObj 3 Samples.split_third] in
  let after :=
    <[1%nat := VList [Samples.third_jpg; Samples.ice_jpg; Samples.fire_jpg]]>
      Samples.lists_store in
  join_dual_card_layouts Samples.lists_store batch
  = Ok (after, [IObj 1 Samples.split_fire])
  /\ raised (join_dual_card_layouts Samples.lists_store batch)
     <> Some "MergeAmbiguity"%string
  /\ distinct_keys (split_of [IObj 1 Samples.split_fire]).
Proof.
  intros batch after.
  assert (Hrun : join_dual_card_layouts Samples.lists_store batch
                 = Ok (after, [IObj 1 Samples.split_fire]))
    by (vm_compute; reflexivity).
  destruct (join_has_no_merge_ambiguity Samples.lists_store batch) as [Hno Hok].
  split; [exact Hrun|]. split; [exact Hno|].
  exact (proj1 (Hok _ _ Hrun)).
Defined.

(** C3 as stated fails: three instances of Fire // Ice share one display
    string, and the outcome is not a MergeAmbiguity. Freshly classified, they
    make the call raise [TypeError], as two of them do; with lists already
    in [art_file], the first instance silently takes the files of both
    others. *)
Lemma three_split_instances_no_merge_ambiguity :
  let batch := [IObj 1 Samples.split_fire; IObj 2 Samples.split_ice;
                IObj 3 Samples.split_third] in
  SplitLayout_str Samples.split_fire = SplitLayout_str Samples.split_ice
  /\ SplitLayout_str Samples.split_ice = SplitLayout_str Samples.split_third
  /\ is_ok (SplitLayout_str Samples.split_fire) = true
  /\ raised (join_dual_card_layouts ∅ batch) = Some "TypeError"%string
  /\ raised (join_dual_card_layouts ∅ batch) <> Some "MergeAmbiguity"%string
  /\ raised (join_dual_card_layouts Samples.lists_store batch) = None
  /\ raised (join_dual_card_layouts Samples.lists_store batch)
     <> Some "MergeAmbiguity"%string.
Proof.
  repeat split; try (vm_compute; reflexivity); vm_compute; discriminate.
Qed.

(** C4 under the sample settings (Fallback, default key "wotc"): a card
    without a watermark takes the asset of the default key; of the two faces
    of a Split card, the first takes the asset of its own key and the second,
    which has none, that of the default key. *)
Lemma watermark_svg_policy_witness :
  NormalLayout_watermark_svg (Samples.numbered None)
  = Some (u "watermarks/wotc.svg")
  /\ SplitLayout_watermark_svgs Samples.split_marked
     = [Some (u "watermarks/phyrexian.svg"); Some (u "watermarks/wotc.svg")].
Proof.
  split.
  - rewrite (proj1 (watermark_svg_policy (Samples.numbered None))).
    reflexivity.
  - rewrite (proj2 (watermark_svg_policy Samples.split_marked)).
    reflexivity.
Defined.

(** C7 on the Saga of the specification, under the sample settings
    (reminder removal off). *)
Lemma saga_description_and_lines_witness :
  Config.remove_reminder CFG = false
  /\ SagaLayout_saga_description Samples.saga_read_ahead = u "Read ahead."
  /\ exists entries,
       SagaLayout_saga_lines Samples.saga_read_ahead = Ok entries
       /\ map saga_line_icons entries = [[u "I"]; [u "II"]; [u "III"]].
Proof.
  assert (Hrr : Config.remove_reminder CFG = false) by reflexivity.
  split; [exact Hrr|].
  destruct (saga_description_and_lines Samples.saga_read_ahead Hrr)
    as (_ & _ & _ & _ & _ & Hdesc & Hlines).
  split; [exact Hdesc|]. eexists. split; [exact Hlines|reflexivity].
Defined.

(** C9 on the sample planeswalker: a static ability and two activated
    ones, the second with its minus sign replaced. *)
Lemma pw_abilities_witness :
  displayed_lines Samples.walker
  = [u "Spells you cast cost {1} less."; u "+1: Draw a card.";
     u "-10: You win the game."]
  /\ exists abilities,
       PlaneswalkerLayout_pw_abilities Samples.walker = Ok abilities
       /\ abilities
          = [mkPwAbility (u "Spells you cast cost {1} less.") None None;
             mkPwAbility (u "Draw a card.") (Some 43%N) (Some (u "+1"));
             mkPwAbility (u "You win the game.") (Some 45%N) (Some (u "-10"))].
Proof.
  split; [reflexivity|].
  destruct (pw_abilities_activated_iff_position_1_to_4 Samples.walker)
    as (abilities & Hrun & _).
  exists abilities. split; [exact Hrun|].
  vm_compute in Hrun. injection Hrun as <-. reflexivity.
Defined.

(** C9 as stated fails on a printing in another language: for the French
    line "+1 : Piochez une carte." of the English ability "+1: Draw a card.",
    the separator is found at position 2 of the English line, and the text
    is the French line from its fourth character on. It starts with the
    colon, where the remainder after the separator of the French line is
    "Piochez une carte.". *)
Lemma printed_ability_is_cut_at_the_english_position :
  PLANESWALKER_findall (PlaneswalkerLayout_oracle_text_raw Samples.walker_fr)
  = [u "+1: Draw a card."]
  /\ displayed_lines Samples.walker_fr = [u "+1 : Piochez une carte."]
  /\ find (u ": ") (u "+1: Draw a card.") = 2
  /\ PlaneswalkerLayout_pw_abilities Samples.walker_fr
     = Ok [mkPwAbility (u ": Piochez une carte.") (Some 43%N) (Some (u "+1"))]
  /\ find (u ": ") (u "+1 : Piochez une carte.") = 3
  /\ lstrip (slice_from (u "+1 : Piochez une carte.") (3 + 2))
     = u "Piochez une carte."
  /\ u ": Piochez une carte." <> u "Piochez une carte.".
Proof.
  repeat split; try reflexivity. vm_compute. discriminate.
Qed.

(** C10 on a transforming card classified from the art file of its back
    face: the fields are read from the back face. *)
Lemma card_is_first_matching_face_witness :
  cls Samples.transform_night <> Cls.SplitLayout
  /\ card Samples.transform_night = Ok Samples.night
  /\ exists selected,
       card Samples.transform_night = Ok selected
       /\ frame Samples.transform_night = Ok (Samples.plain_frame selected)
       /\ NormalLayout_name_raw Samples.transform_night = Face.name selected.
Proof.
  assert (Hcls : cls Samples.transform_night <> Cls.SplitLayout) by discriminate.
  split; [exact Hcls|]. split; [reflexivity|].
  destruct (card_is_first_matching_face Samples.transform_night Hcls)
    as (selected & Hcard & _ & Hframe & Hname & _).
  exists selected. repeat split; assumption.
Defined.

(** C10 as stated fails on a Split card: for Fire // Ice classified from the
    art file [Ice.jpg], the first face whose normalized name equals the
    normalized input name is Ice, yet [card] and the fields read from it are
    those of Fire, the first face of the list. *)
Lemma split_card_ignores_input_name :
  Scryfall.card_faces (scryfall Samples.split_ice)
  = Some [Samples.fire; Samples.ice]
  /\ normalize_str (Face.name Samples.fire)
     <> normalize_str (NormalLayout_input_name Samples.split_ice)
  /\ normalize_str (Face.name Samples.ice)
     = normalize_str (NormalLayout_input_name Samples.split_ice)
  /\ card Samples.split_ice = Ok Samples.fire
  /\ card Samples.split_ice <> Ok Samples.ice
  /\ SplitLayout_name Samples.split_ice = Ok (u "Fire")
  /\ SplitLayout_oracle_text Samples.split_ice = Ok (u "Fire deals 2 damage.").
Proof.
  repeat split; try reflexivity; vm_compute; discriminate.
Qed.

(** ** The further properties on the sample data *)

#[local] Existing Instance MoreSamples.more_env.

(** X4 on the keys "SYMBOL" and "symbol", for a token of the token set:
    the symbol found is that of the parent set. *)
Lemma find_watermark_svg_ignores_case_witness :
  lower (u "SYMBOL") = lower (u "symbol")
  /\ find_watermark_svg Samples.token (Some (u "SYMBOL"))
     = find_watermark_svg Samples.token (Some (u "symbol"))
  /\ NormalLayout_set Samples.token = u "TAPC"
  /\ find_watermark_svg Samples.token (Some (u "SYMBOL"))
     = Some (u "symbols/APC/WM.svg").
Proof.
  assert (Hl : lower (u "SYMBOL") = lower (u "symbol")) by reflexivity.
  destruct (find_watermark_svg_ignores_case Samples.token _ _ Hl) as [He Hs].
  split; [exact Hl|]. split; [exact He|]. split; [reflexivity|].
  rewrite (Hs eq_refl). reflexivity.
Defined.

(** X6 on the sample station card, whose text before the marker is
    "Flying". *)
Lemma station_oracle_text_witness :
  StationLayout_oracle_text MoreSamples.station = Ok (u "Flying")
  /\ exists rest,
       StationLayout_oracle_text_unprocessed MoreSamples.station
       = u "Flying" ++ STATION_MARKER ++ rest.
Proof.
  assert (Ht : StationLayout_oracle_text MoreSamples.station = Ok (u "Flying"))
    by reflexivity.
  split; [exact Ht|].
  exact (proj1 (station_oracle_text_is_text_before_first_marker
                  MoreSamples.station _ Ht)).
Defined.

(** X7 on the sample station card and its two levels. *)
Lemma stations_are_well_formed_witness :
  let levels :=
    [mkStationDetails (u "3+") (u "Draw a card.") None;
     mkStationDetails (u "8+") (u "Trample") (Some (u "5", u "6"))] in
  StationLayout_stations MoreSamples.station = Ok levels
  /\ Forall station_well_formed levels.
Proof.
  intros levels.
  assert (Hs : StationLayout_stations MoreSamples.station = Ok levels)
    by reflexivity.
  split; [exact Hs|].
  exact (stations_are_well_formed MoreSamples.station levels Hs).
Defined.

(** X8 on two artists sharing a last name. *)
Lemma artist_words_are_not_repeated_witness :
  let listed := Some (u "Greg Hildebrandt & Tim Hildebrandt") in
  artist_of None listed = u "Greg & Tim Hildebrandt"
  /\ exists words,
       artist_of None listed = join (u " ") words /\ List.NoDup words.
Proof.
  intros listed. split; [reflexivity|].
  destruct (artist_words_are_not_repeated None listed eq_refl eq_refl)
    as [(words & E & Hn & _) _].
  exists words. split; assumption.
Defined.

(** X9 on the transforming sample card, classified from its back face. *)
Lemma other_face_is_the_opposing_face_witness :
  card Samples.transform_night = Ok Samples.night
  /\ NormalLayout_other_face Samples.transform_night = Ok (Some Samples.day).
Proof.
  assert (Hc : card Samples.transform_night = Ok Samples.night)
    by reflexivity.
  split; [exact Hc|].
  assert (Hcls : cls Samples.transform_night <> Cls.SplitLayout)
    by discriminate.
  assert (Hne : Face.name Samples.day <> Face.name Samples.night)
    by (vm_compute; discriminate).
  destruct (other_face_is_the_opposing_face Samples.transform_night
              Samples.day Samples.night Hcls eq_refl Hne) as (_ & Hb & _).
  exact (Hb Hc).
Defined.

(** X10 on an error message and a normal layout. *)
Lemma join_without_split_is_identity_witness :
  join_dual_card_layouts ∅
    [IStr (u "Layout incompatible"); IObj 7 (Samples.numbered None)]
  = Ok (∅, [IStr (u "Layout incompatible"); IObj 7 (Samples.numbered None)]).
Proof.
  apply join_without_split_is_identity.
  intros n [<-|[<-|[]]]; reflexivity.
Defined.

(** X11 on a batch that returns: Fire // Ice, an error message and
    Wear // Tear, freshly classified. *)
Lemma join_returns_entries_of_the_batch_witness :
  let batch := [IObj 1 Samples.split_fire; IStr (u "Layout incompatible");
                IObj 4 Samples.split_wear] in
  let out := [IStr (u "Layout incompatible"); IObj 1 Samples.split_fire;
              IObj 4 Samples.split_wear] in
  join_dual_card_layouts ∅ batch = Ok (∅, out)
  /\ (length out <= length batch)%nat.
Proof.
  intros batch out.
  assert (Hrun : join_dual_card_layouts ∅ batch = Ok (∅, out))
    by (vm_compute; reflexivity).
  split; [exact Hrun|].
  exact (proj1 (proj2 (join_returns_entries_of_the_batch ∅ ∅ batch out Hrun))).
Defined.

(** X14 on Fire // Ice, which has no shared reminder. *)
Lemma split_oracle_texts_without_fuse_witness :
  has_fuse Samples.split_fire = false
  /\ SplitLayout_oracle_texts Samples.split_fire
     = SplitLayout_face_texts Samples.split_fire.
Proof.
  assert (Hf : has_fuse Samples.split_fire = false) by reflexivity.
  split; [exact Hf|].
  exact (proj1 (split_oracle_texts_without_fuse Samples.split_fire Hf) eq_refl).
Defined.

(** X15 on a card numbered "050" in a set of 230 cards. *)
Lemma card_count_is_at_least_collector_number_witness :
  card_count MoreSamples.station = Ok (Some 230)
  /\ exists number,
       NormalLayout_collector_number MoreSamples.station = Ok number
       /\ 0 <= number <= 230.
Proof.
  assert (Hc : card_count MoreSamples.station = Ok (Some 230))
    by reflexivity.
  split; [exact Hc|].
  destruct (card_count_is_at_least_collector_number
              MoreSamples.station 230 Hc) as (_ & _ & Hn & _).
  apply Hn. discriminate.
Defined.

(** X16 on the same card, of mythic rarity, and on a token numbered "3" of
    a token set of 12 tokens. *)
Lemma collector_data_shape_witness :
  collector_data MoreSamples.station = Ok (u "050/230 M")
  /\ collector_data Samples.token = Ok (u "003/012 T")
  /\ (u "003/012 T" = []
      <-> truthy_opt (NormalLayout_collector_number_raw Samples.token) = false).
Proof.
  assert (Hd : collector_data Samples.token = Ok (u "003/012 T"))
    by reflexivity.
  split; [reflexivity|]. split; [exact Hd|].
  exact (proj1 (collector_data_shape Samples.token _ Hd)).
Defined.

(** X17 on the sample class card: the first ability and the two levels. *)
Lemma class_lines_start_at_level_one_witness :
  exists first rest,
    ClassLayout_class_lines MoreSamples.class_card = Ok (first :: rest)
    /\ first = mkClassLine (u "When this Class enters, draw a card.")
                 None (LevelInt 1)
    /\ rest = [mkClassLine (u "You have no maximum hand size.")
                 (Some (u "{1}{U}")) (LevelStr (u "2"));
               mkClassLine (u "Draw two cards.")
                 (Some (u "{3}{U}")) (LevelStr (u "3"))]
    /\ length rest = 2%nat.
Proof.
  destruct (class_lines_start_at_level_one MoreSamples.class_card)
    as (first & rest & Hrun & _ & _ & _ & Hlen & _).
  exists first, rest. split; [exact Hrun|].
  vm_compute in Hrun. injection Hrun as <- <-.
  split; [reflexivity|]. split; reflexivity.
Defined.
